(** * Loan-Intelligence: the loan risk-scoring engine of [ml_model.py]

    A shallow embedding of [train_model_if_needed], [RuleBasedModel.predict_proba],
    [predict_approval] and [get_model_explanation], and the properties the
    specification states about them; then the helpers of [utils.py] the
    pages call next to the engine ([calculate_dti_ratio],
    [calculate_monthly_payment], [validate_email], [validate_phone]), the
    43% warning of the pages, and further properties of all of them.

    Numbers.  Python's [float] and numpy's [float64] are IEEE-754 binary64
    numbers.  A finite one is represented here by its exact rational value,
    next to the infinities and NaN, and every arithmetic operation is the
    exact rational operation followed by rounding to the nearest binary64
    number, ties to even, which is how IEEE-754 defines [+], [-], [*], [/]
    and the conversion of integers and decimal literals; the operations are
    compared with the primitive binary64 operations on the numbers of the
    concrete scenario.  The sign of a zero is not represented: the engine
    never divides by a zero (every division is guarded by [> 0] or has a
    constant divisor), a division by a zero in [utils.py] raises whatever
    the sign, and nothing else the code does distinguishes [-0.0] from
    [0.0].  Integers are unbounded, as in Python; [of_int] is the
    conversion of an integer to the nearest float, which is also how an
    integer column of a frame is read back in a row of floats.

    Effects.  [int()], [float()], [/] and indexing raise: such code returns
    a [result].  The two files of the engine, the pickled model and the CSV
    file of applications, are a record [files] passed through the trainer. *)

From Stdlib Require Import ZArith QArith Qround Qpower Lia Lqa Bool List.
From Stdlib Require Import Floats.
From stdpp Require Import base strings gmap.

Local Open Scope Z_scope.

(** ** IEEE-754 binary64 *)

Module F64.

Inductive float64 : Type :=
  | NaN
  | Inf (neg : bool)
  | Fin (q : Q).

(** [pow2 e] is 2^e, for any integer [e]. *)
Definition pow2 (e : Z) : Q := (2 ^ e)%Q.

Definition Qltb (a b : Q) : bool :=
  match (a ?= b)%Q with Lt => true | _ => false end.

(** The binade of a positive rational: [ilog2 q = k] with 2^k <= q < 2^(k+1). *)
Definition ilog2 (q : Q) : Z :=
  let k := Z.log2 (Qnum q) - Z.log2 (Zpos (Qden q)) in
  if Qle_bool (pow2 k) q then k else k - 1.

(** Nearest integer, ties to the even one. *)
Definition rne (x : Q) : Z :=
  let f := Qfloor x in
  match ((x - inject_Z f) ?= (1 # 2))%Q with
  | Lt => f
  | Gt => f + 1
  | Eq => if Z.even f then f else f + 1
  end.

(** Rounding of a positive rational to 53 significant bits: the exponent
    [rexp q] of the last bit, with gradual underflow below 2^-1022, the
    rounded value [rval q], and the overflow to infinity from 2^1024 on. *)
Definition rexp (q : Q) : Z := Z.max (ilog2 q - 52) (-1074).

Definition rval (q : Q) : Q :=
  (inject_Z (rne (q / pow2 (rexp q))) * pow2 (rexp q))%Q.

Definition round_pos (q : Q) : float64 :=
  if Qle_bool (pow2 1024) (rval q) then Inf false else Fin (Qred (rval q)).

Definition neg (x : float64) : float64 :=
  match x with
  | NaN => NaN
  | Inf s => Inf (negb s)
  | Fin q => Fin (Qred (- q))
  end.

Definition round (q : Q) : float64 :=
  match (q ?= 0)%Q with
  | Eq => Fin 0
  | Gt => round_pos q
  | Lt => neg (round_pos (- q))
  end.

(** A decimal literal of the source, and an integer used where a float is
    expected. *)
Definition lit (q : Q) : float64 := round q.
Definition of_int (z : Z) : float64 := round (inject_Z z).

Definition add (x y : float64) : float64 :=
  match x, y with
  | NaN, _ | _, NaN => NaN
  | Inf a, Inf b => if Bool.eqb a b then Inf a else NaN
  | Inf a, Fin _ => Inf a
  | Fin _, Inf b => Inf b
  | Fin a, Fin b => round (a + b)
  end.

Definition sub (x y : float64) : float64 := add x (neg y).

Definition mul (x y : float64) : float64 :=
  match x, y with
  | NaN, _ | _, NaN => NaN
  | Inf a, Inf b => Inf (xorb a b)
  | Inf a, Fin q | Fin q, Inf a =>
      match (q ?= 0)%Q with
      | Eq => NaN
      | Lt => Inf (negb a)
      | Gt => Inf a
      end
  | Fin a, Fin b => round (a * b)
  end.

Definition is_zero (x : float64) : bool :=
  match x with
  | Fin q => Qeq_bool q 0
  | _ => false
  end.

(** The quotient by a number that is not a zero. *)
Definition quotient (x y : float64) : float64 :=
  match x, y with
  | NaN, _ | _, NaN => NaN
  | Inf _, Inf _ => NaN
  | Inf a, Fin q => if Qltb q 0 then Inf (negb a) else Inf a
  | Fin _, Inf _ => Fin 0
  | Fin a, Fin b => round (a / b)
  end.

(** Division; [None] for a zero divisor, where Python raises and numpy
    warns. *)
Definition div (x y : float64) : option float64 :=
  if is_zero y then None else Some (quotient x y).

(** Comparisons: every comparison with NaN is false. *)
Definition ltb (x y : float64) : bool :=
  match x, y with
  | NaN, _ | _, NaN => false
  | Inf a, Inf b => a && negb b
  | Inf a, Fin _ => a
  | Fin _, Inf b => negb b
  | Fin a, Fin b => Qltb a b
  end.

Definition leb (x y : float64) : bool :=
  match x, y with
  | NaN, _ | _, NaN => false
  | Inf a, Inf b => a || negb b
  | Inf a, Fin _ => a
  | Fin _, Inf b => negb b
  | Fin a, Fin b => Qle_bool a b
  end.

Definition gtb (x y : float64) : bool := ltb y x.

(** The integer part, towards zero, of a finite number. *)
Definition trunc (q : Q) : Z := Z.quot (Qnum q) (Zpos (Qden q)).

(** The value of a [spec_float] of the Standard Library, used to compare
    the operations above with the primitive binary64 operations. *)
Definition of_spec (x : spec_float) : float64 :=
  match x with
  | S754_zero _ => Fin 0
  | S754_infinity s => Inf s
  | S754_nan => NaN
  | S754_finite s m e =>
      Fin (Qred ((if s then inject_Z (Zneg m) else inject_Z (Zpos m)) * pow2 e))
  end.

Definition of_prim (x : PrimFloat.float) : float64 := of_spec (Prim2SF x).

End F64.

Import F64.

(** ** Python values, exceptions and coercions *)

Inductive exn : Type :=
  | ValueError
  | OverflowError
  | ZeroDivisionError
  | IndexError
  | AttributeError
  | EOFError
  | FileNotFoundError.

Inductive result (A : Type) : Type :=
  | Ok (a : A)
  | Raise (e : exn).
Arguments Ok {A} a.
Arguments Raise {A} e.

Definition bind {A B : Type} (r : result A) (k : A -> result B) : result B :=
  match r with
  | Ok a => k a
  | Raise e => Raise e
  end.

Notation "'do' x <- e ; k" := (bind e (fun x => k))
  (at level 10, x name, e at level 100, k at level 200).

(** The values found in an application record: the numbers the form
    widgets produce and the CSV reader returns for the numeric columns
    (NaN for an empty cell). *)
Inductive pyval : Type :=
  | PyInt (z : Z)
  | PyFloat (f : float64).

(** [float(v)] *)
Definition py_float (v : pyval) : result float64 :=
  match v with
  | PyInt z =>
      match of_int z with
      | Inf _ => Raise OverflowError
      | f => Ok f
      end
  | PyFloat f => Ok f
  end.

(** [int(v)] *)
Definition py_int (v : pyval) : result Z :=
  match v with
  | PyInt z => Ok z
  | PyFloat NaN => Raise ValueError
  | PyFloat (Inf _) => Raise OverflowError
  | PyFloat (Fin q) => Ok (trunc q)
  end.

(** [x / y] on floats.  Python raises on a zero divisor; numpy warns and
    returns an infinity or NaN instead, which no division of
    [predict_proba] meets: each has a positive or constant divisor. *)
Definition truediv (x y : float64) : result float64 :=
  match F64.div x y with
  | Some r => Ok r
  | None => Raise ZeroDivisionError
  end.

(** The builtins [min(a, b)] and [max(a, b)]: the first argument is kept
    unless the second is strictly smaller (larger). *)
Definition py_min (a b : float64) : float64 := if ltb b a then b else a.
Definition py_max (a b : float64) : float64 := if gtb b a then b else a.

(** [round(x)] of Python: the nearest integer, ties to the even one. *)
Definition py_round (x : float64) : result Z :=
  match x with
  | NaN => Raise ValueError
  | Inf _ => Raise OverflowError
  | Fin q => Ok (rne q)
  end.

(** [application_data.get(key, 0)] *)
Definition get (application_data : gmap string pyval) (key : string) : pyval :=
  default (PyInt 0) (application_data !! key).

(** The values [float()] and [int()] accept, and what they return. *)
Definition float_ok (v : pyval) : Prop :=
  match v with
  | PyInt z => (Z.abs z < 2 ^ 1024 - 2 ^ 970)%Z
  | PyFloat _ => True
  end.

Definition int_ok (v : pyval) : Prop :=
  match v with
  | PyInt _ => True
  | PyFloat (Fin _) => True
  | PyFloat _ => False
  end.

Definition as_float (v : pyval) (x : float64) : Prop :=
  match v with
  | PyInt z => x = of_int z
  | PyFloat y => x = y
  end.

Definition as_int (v : pyval) (z : Z) : Prop :=
  match v with
  | PyInt n => z = n
  | PyFloat (Fin q) => z = trunc q
  | PyFloat _ => False
  end.

(** ** The six scoring inputs *)

Record features : Type := {
  loan_amount : float64;
  loan_term : Z;
  annual_income : float64;
  employment_length : Z;
  credit_score : Z;
  monthly_debt : float64
}.

(** The one-row frame built in [predict_approval], lines 103-110. *)
Definition extract_features (application_data : gmap string pyval) : result features :=
  do la <- py_float (get application_data "loan_amount") ;
  do lt <- py_int (get application_data "loan_term") ;
  do ai <- py_float (get application_data "annual_income") ;
  do el <- py_int (get application_data "employment_length") ;
  do cs <- py_int (get application_data "credit_score") ;
  do md <- py_float (get application_data "monthly_debt") ;
  Ok {| loan_amount := la; loan_term := lt; annual_income := ai;
        employment_length := el; credit_score := cs; monthly_debt := md |}.

(** ** RuleBasedModel.predict_proba, lines 53-89

    One definition per local variable of the loop body, composed in the
    order of the source; first for a row [X.iloc[i]] of dtype float64, in
    which the integer columns are read back as floats, then for the rows of
    every dtype. *)

(** Line 64. *)
Definition monthly_income_of (annual_income : float64) : result float64 :=
  truediv annual_income (of_int 12).

(** Line 65. *)
Definition dti_ratio_of (monthly_debt monthly_income : float64) : result float64 :=
  if gtb monthly_income (of_int 0)
  then truediv monthly_debt monthly_income else Ok (of_int 1).

(** Line 68. *)
Definition loan_to_income_of (loan_amount annual_income : float64) : result float64 :=
  if gtb annual_income (of_int 0)
  then truediv loan_amount annual_income else Ok (of_int 1).

(** Lines 74-75. *)
Definition credit_factor_of (credit_score : float64) : result float64 :=
  do credit_factor <- truediv (sub credit_score (of_int 300)) (of_int 500) ;
  Ok (py_max (of_int 0) (py_min (of_int 1) credit_factor)).

(** Lines 78 and 81. *)
Definition dti_factor_of (dti_ratio : float64) : float64 :=
  py_max (of_int 0) (py_min (of_int 1) (sub (of_int 1) dti_ratio)).

Definition lti_factor_of (loan_to_income : float64) : float64 :=
  py_max (of_int 0) (py_min (of_int 1) (sub (of_int 1) loan_to_income)).

(** Lines 71 and 84-85. *)
Definition combine (credit_factor dti_factor lti_factor : float64) : float64 :=
  let base_score := lit 0.5 in
  let score := add (add (add base_score (mul (lit 0.2) credit_factor))
                        (mul (lit 0.15) dti_factor))
                   (mul (lit 0.15) lti_factor) in
  py_max (lit 0.05) (py_min (lit 0.95) score).

(** The probability of approval of one row of dtype float64, lines 58-85. *)
Definition rule_probability (r : features) : result float64 :=
  let loan_amount := loan_amount r in
  let annual_income := annual_income r in
  let credit_score := of_int (credit_score r) in
  let monthly_debt := monthly_debt r in
  do monthly_income <- monthly_income_of annual_income ;
  do dti_ratio <- dti_ratio_of monthly_debt monthly_income ;
  do loan_to_income <- loan_to_income_of loan_amount annual_income ;
  do credit_factor <- credit_factor_of credit_score ;
  let dti_factor := dti_factor_of dti_ratio in
  let lti_factor := lti_factor_of loan_to_income in
  Ok (combine credit_factor dti_factor lti_factor).

(** *** The dtype of a row

    A frame is the list of its rows and has the columns of the frame of
    lines 103-110: three columns of floats, of dtype float64, and three
    columns of Python integers.  pandas stores a column
    of integers as int64 when every value fits, as uint64 when the values
    are not negative and fit in 64 bits, and otherwise as a column of
    Python objects.  [X.iloc[i]] has the common dtype of the six columns:
    float64 while the integer columns are int64 or uint64, every integer
    being read back as the nearest float, and object as soon as one column
    is; then every entry of the row is the scalar of its own column, a
    numpy.float64, a numpy.int64, a numpy.uint64 or the Python integer. *)

Definition in_int64 (z : Z) : bool := (- 2 ^ 63 <=? z) && (z <? 2 ^ 63).
Definition in_uint64 (z : Z) : bool := (0 <=? z) && (z <? 2 ^ 64).

Inductive dtype : Type :=
  | dtype_int64
  | dtype_uint64
  | dtype_object.

Definition integer_dtype (column : list Z) : dtype :=
  if forallb in_int64 column then dtype_int64
  else if forallb in_uint64 column then dtype_uint64
  else dtype_object.

Definition is_object (d : dtype) : bool :=
  match d with
  | dtype_object => true
  | _ => false
  end.

(** Whether the rows of the frame have the dtype float64. *)
Definition float64_rows (X : list features) : bool :=
  negb (is_object (integer_dtype (map loan_term X)))
  && negb (is_object (integer_dtype (map employment_length X)))
  && negb (is_object (integer_dtype (map credit_score X))).

Inductive scalar : Type :=
  | Float64 (x : float64)
  | Int64 (z : Z)
  | UInt64 (z : Z)
  | PyLong (z : Z).

(** Line 60: [X.iloc[i]['credit_score']]. *)
Definition iloc_credit_score (X : list features) (r : features) : scalar :=
  if float64_rows X then Float64 (of_int (credit_score r))
  else
    match integer_dtype (map credit_score X) with
    | dtype_int64 => Int64 (credit_score r)
    | dtype_uint64 => UInt64 (credit_score r)
    | dtype_object => PyLong (credit_score r)
    end.

(** The integers of numpy wrap around at 64 bits (with a warning); the
    integers of Python are exact, and their quotient [a / b] is the float
    nearest to the exact quotient, or an OverflowError when that is out of
    the range of the floats.  A numpy.uint64 minus 300 is a numpy.uint64
    from NumPy 2 on, as here; NumPy 1 subtracts in float64, which gives
    another credit factor below 300 only, and an entry of a row is a
    numpy.uint64 only when another entry of the frame is beyond int64. *)
Definition wrap_int64 (z : Z) : Z := (z + 2 ^ 63) mod 2 ^ 64 - 2 ^ 63.
Definition wrap_uint64 (z : Z) : Z := z mod 2 ^ 64.

Definition int_truediv (a b : Z) : result float64 :=
  if b =? 0 then Raise ZeroDivisionError
  else
    match round (inject_Z a / inject_Z b) with
    | Inf _ => Raise OverflowError
    | q => Ok q
    end.

(** Lines 74-75, for each kind of scalar. *)
Definition credit_factor_of_scalar (credit_score : scalar) : result float64 :=
  match credit_score with
  | Float64 x => credit_factor_of x
  | Int64 z =>
      do credit_factor <- truediv (of_int (wrap_int64 (z - 300))) (of_int 500) ;
      Ok (py_max (of_int 0) (py_min (of_int 1) credit_factor))
  | UInt64 z =>
      do credit_factor <- truediv (of_int (wrap_uint64 (z - 300))) (of_int 500) ;
      Ok (py_max (of_int 0) (py_min (of_int 1) credit_factor))
  | PyLong z =>
      do credit_factor <- int_truediv (z - 300) 500 ;
      Ok (py_max (of_int 0) (py_min (of_int 1) credit_factor))
  end.

(** The probability of approval of row [r] of the frame [X], lines 58-85:
    the three columns of floats are read as floats in a row of either
    dtype. *)
Definition row_probability (X : list features) (r : features) : result float64 :=
  let loan_amount := loan_amount r in
  let annual_income := annual_income r in
  let credit_score := iloc_credit_score X r in
  let monthly_debt := monthly_debt r in
  do monthly_income <- monthly_income_of annual_income ;
  do dti_ratio <- dti_ratio_of monthly_debt monthly_income ;
  do loan_to_income <- loan_to_income_of loan_amount annual_income ;
  do credit_factor <- credit_factor_of_scalar credit_score ;
  let dti_factor := dti_factor_of dti_ratio in
  let lti_factor := lti_factor_of loan_to_income in
  Ok (combine credit_factor dti_factor lti_factor).

(** Line 87: the row [[1 - score, score]]. *)
Definition rule_row (X : list features) (r : features) : result (list float64) :=
  do score <- row_probability X r ;
  Ok [sub (of_int 1) score; score].

(** Lines 55-89: the loop over the rows of [X]. *)
Fixpoint predict_proba_rows (X rows : list features) : result (list (list float64)) :=
  match rows with
  | [] => Ok []
  | r :: rows' =>
      do row <- rule_row X r ;
      do results <- predict_proba_rows X rows' ;
      Ok (row :: results)
  end.

Definition RuleBasedModel_predict_proba (X : list features)
  : result (list (list float64)) :=
  predict_proba_rows X X.

(** A row whose three integers are in the range of int64. *)
Definition int64_row (r : features) : bool :=
  in_int64 (loan_term r) && in_int64 (employment_length r) && in_int64 (credit_score r).

(** The guarded ratios and the credit factor without the error monad: the
    values the definitions above return, as the proofs below show. *)
Definition guarded_ratio (num den : float64) (otherwise : float64) : float64 :=
  if gtb den (of_int 0) then quotient num den else otherwise.

Definition clamped_credit (credit_score : float64) : float64 :=
  py_max (Fin 0) (py_min (Fin 1) (quotient (sub credit_score (Fin 300)) (Fin 500))).

(** [int(prob * 100)], line 116. *)
Definition score_of_prob (prob : float64) : result Z :=
  py_int (PyFloat (mul prob (of_int 100))).

(** ** get_model_explanation, lines 120-176 *)

Definition credit_explanation (credit_score : Z) : string :=
  if 750 <=? credit_score then "Your excellent credit score is favorable for approval."
  else if 700 <=? credit_score then "Your good credit score is a positive factor."
  else if 650 <=? credit_score then "Your fair credit score may impact your approval odds."
  else if 600 <=? credit_score then "Your below-average credit score is a concern."
  else "Your credit score is too low for most standard loans.".

Definition dti_explanation (dti_ratio : float64) : string :=
  if leb dti_ratio (lit 0.2) then "Your very low debt-to-income ratio strongly favors approval."
  else if leb dti_ratio (lit 0.36) then "Your debt-to-income ratio is within acceptable limits."
  else if leb dti_ratio (lit 0.43) then "Your debt-to-income ratio is slightly elevated."
  else "Your high debt-to-income ratio may limit approval chances.".

Definition payment_explanation (payment_to_income : float64) : string :=
  if leb payment_to_income (lit 0.1)
  then "The proposed loan payment is easily affordable relative to your income."
  else if leb payment_to_income (lit 0.28)
  then "The proposed loan payment is reasonably affordable relative to your income."
  else "The proposed loan payment is high relative to your income.".

Definition amount_explanation (loan_amount annual_income : float64) : string :=
  if leb loan_amount (mul annual_income (lit 0.5))
  then "Your requested loan amount is conservative relative to your annual income."
  else if leb loan_amount (mul annual_income (of_int 2))
  then "Your requested loan amount is reasonable relative to your annual income."
  else "Your requested loan amount is high relative to your annual income.".

(** Lines 131-133: the ratios of the explanation, infinite where the source
    cannot divide. *)
Definition explained_dti_ratio (monthly_debt monthly_income : float64) : result float64 :=
  if gtb monthly_income (of_int 0)
  then truediv monthly_debt monthly_income else Ok (Inf false).

Definition explained_monthly_payment (loan_amount : float64) (loan_term : Z)
  : result float64 :=
  if 0 <? loan_term
  then (do t <- py_float (PyInt loan_term) ; truediv loan_amount t)
  else Ok (Inf false).

Definition explained_payment_to_income (monthly_payment monthly_income : float64)
  : result float64 :=
  if gtb monthly_income (of_int 0)
  then truediv monthly_payment monthly_income else Ok (Inf false).

Definition get_model_explanation (application_data : gmap string pyval)
  : result (list string) :=
  do loan_amount <- py_float (get application_data "loan_amount") ;
  do loan_term <- py_int (get application_data "loan_term") ;
  do annual_income <- py_float (get application_data "annual_income") ;
  do credit_score <- py_int (get application_data "credit_score") ;
  do monthly_debt <- py_float (get application_data "monthly_debt") ;
  do monthly_income <- monthly_income_of annual_income ;
  do dti_ratio <- explained_dti_ratio monthly_debt monthly_income ;
  do monthly_payment <- explained_monthly_payment loan_amount loan_term ;
  do payment_to_income <- explained_payment_to_income monthly_payment monthly_income ;
  Ok [ credit_explanation credit_score;
       dti_explanation dti_ratio;
       payment_explanation payment_to_income;
       amount_explanation loan_amount annual_income ].

(** ** The model artifact and its life cycle *)

Section Lifecycle.

(** The learned classifier comes from scikit-learn: its type, the fitting
    [RandomForestClassifier(n_estimators=50, random_state=42).fit(X, y)] and
    its [predict_proba], one row [[p0, p1, ...]] per row of the frame. *)
Variable classifier : Type.
Variable fit : list features -> list Z -> classifier.
Variable classifier_predict_proba : classifier -> list features -> list (list float64).

Inductive model : Type :=
  | RuleBasedModel
  | RandomForestClassifier (clf : classifier).

(** Lines 49-91. *)
Definition _create_rule_based_model : model := RuleBasedModel.

Definition predict_proba (m : model) (X : list features) : result (list (list float64)) :=
  match m with
  | RuleBasedModel => RuleBasedModel_predict_proba X
  | RandomForestClassifier clf => Ok (classifier_predict_proba clf X)
  end.

(** What [MODEL_FILE] holds: a pickle that loads as a model, or an
    incomplete one, left behind when [pickle.dump] raised after
    [open(..., 'wb')] had created the file. *)
Inductive artifact : Type :=
  | Incomplete
  | Pickled (m : model).

(** A row of [loan_applications.csv]: the six feature columns and [status]. *)
Record application : Type := {
  app_features : features;
  status : string
}.

Record files : Type := {
  MODEL_FILE : option artifact;
  loan_applications_csv : option (list application)
}.

(** [pickle.dump(model, f)].  pickle stores an instance by the qualified
    name of its class and looks that name up again; [RuleBasedModel] is
    declared inside the function [_create_rule_based_model], its qualified
    name contains [<locals>], and pickle refuses it with an AttributeError
    ("Can't pickle local object").  A scikit-learn classifier is pickled. *)
Definition pickle_dump (m : model) : result artifact :=
  match m with
  | RuleBasedModel => Raise AttributeError
  | RandomForestClassifier _ => Ok (Pickled m)
  end.

(** [pickle.load(f)] *)
Definition pickle_load (a : artifact) : result model :=
  match a with
  | Incomplete => Raise EOFError
  | Pickled m => Ok m
  end.

(** [with open(MODEL_FILE, 'wb') as f: pickle.dump(model, f)] *)
Definition save_model (fs : files) (m : model) : files * result unit :=
  match pickle_dump m with
  | Ok a => ({| MODEL_FILE := Some a;
                loan_applications_csv := loan_applications_csv fs |}, Ok tt)
  | Raise e => ({| MODEL_FILE := Some Incomplete;
                   loan_applications_csv := loan_applications_csv fs |}, Raise e)
  end.

(** [with open(MODEL_FILE, 'rb') as f: model = pickle.load(f)] *)
Definition load_model (fs : files) : result model :=
  match MODEL_FILE fs with
  | None => Raise FileNotFoundError
  | Some a => pickle_load a
  end.

(** [applications_df['status'].isin(['approved', 'rejected'])] *)
Definition decided (a : application) : bool :=
  String.eqb (status a) "approved" || String.eqb (status a) "rejected".

(** [(decided_apps['status'] == 'approved').astype(int)] *)
Definition label (a : application) : Z :=
  if String.eqb (status a) "approved" then 1 else 0.

(** Lines 14-47. *)
Definition train_model_if_needed (fs : files) : files * result unit :=
  match MODEL_FILE fs with
  | Some _ => (fs, Ok tt)
  | None =>
      let enough :=
        match loan_applications_csv fs with
        | Some applications_df =>
            let decided_apps := List.filter decided applications_df in
            if 10 <=? Z.of_nat (length decided_apps) then Some decided_apps else None
        | None => None
        end in
      match enough with
      | Some decided_apps =>
          let X := map app_features decided_apps in
          let y := map label decided_apps in
          save_model fs (RandomForestClassifier (fit X y))
      | None => save_model fs _create_rule_based_model
      end
  end.

(** [a[0][1]] *)
Definition item_0_1 (a : list (list float64)) : result float64 :=
  match a with
  | (_ :: p :: _) :: _ => Ok p
  | _ => Raise IndexError
  end.

(** Lines 112-118: the score of an extracted frame under a loaded model. *)
Definition score_features (m : model) (f : features) : result Z :=
  do probs <- predict_proba m [f] ;
  do prob <- item_0_1 probs ;
  score_of_prob prob.

(** Lines 93-118. *)
Definition predict_approval (fs : files) (application_data : gmap string pyval)
  : files * result Z :=
  let (fs', trained) := train_model_if_needed fs in
  (fs',
   do _ <- trained ;
   do m <- load_model fs' ;
   do f <- extract_features application_data ;
   score_features m f).

End Lifecycle.

Arguments RuleBasedModel {classifier}.
Arguments RandomForestClassifier {classifier} clf.
Arguments Incomplete {classifier}.
Arguments Pickled {classifier} m.
Arguments MODEL_FILE {classifier} f.
Arguments loan_applications_csv {classifier} f.
Arguments Build_files {classifier} _ _.
Arguments _create_rule_based_model {classifier}.
Arguments predict_proba {classifier} classifier_predict_proba m X.
Arguments pickle_dump {classifier} m.
Arguments pickle_load {classifier} a.
Arguments save_model {classifier} fs m.
Arguments load_model {classifier} fs.
Arguments train_model_if_needed {classifier} fit fs.
Arguments score_features {classifier} classifier_predict_proba m f.
Arguments predict_approval {classifier} fit classifier_predict_proba fs application_data.

(** The score of the learned strategy in the words of the specification:
    [round(probability * 100)]. *)
Definition spec_learned_score (probability : float64) : result Z :=
  py_round (mul probability (of_int 100)).

(** ** Concrete inputs *)

(** The record of the concrete scenario. *)
Definition scenario_record : gmap string pyval :=
  list_to_map [ ("loan_amount", PyInt 10000); ("loan_term", PyInt 3);
                ("annual_income", PyInt 50000); ("employment_length", PyInt 1);
                ("credit_score", PyInt 700); ("monthly_debt", PyInt 1000) ].

Definition scenario_features : features :=
  {| loan_amount := of_int 10000; loan_term := 3; annual_income := of_int 50000;
     employment_length := 1; credit_score := 700; monthly_debt := of_int 1000 |}.



(** The scenario with another credit score and another loan term. *)
Definition scenario_with (credit_score loan_term : Z) : features :=
  {| loan_amount := of_int 10000; loan_term := loan_term; annual_income := of_int 50000;
     employment_length := 1; credit_score := credit_score; monthly_debt := of_int 1000 |}.

(** A forest whose class-1 probability is 0.896 on every row, and one
    where 29 of the 50 trees vote for approval. *)
Definition forest_0_896 (clf : unit) (X : list features) : list (list float64) :=
  map (fun _ => [lit 0.104; lit 0.896]) X.

Definition forest_0_58 (clf : unit) (X : list features) : list (list float64) :=
  map (fun _ => [lit 0.42; lit 0.58]) X.

(** A model file that loads as the learned classifier, one that loads as
    the rule-based model, and no model file next to a CSV file. *)
Definition learned_files : files unit :=
  {| MODEL_FILE := Some (Pickled (RandomForestClassifier tt));
     loan_applications_csv := None |}.

Definition rule_files : files unit :=
  {| MODEL_FILE := Some (Pickled RuleBasedModel);
     loan_applications_csv := None |}.

Definition no_model_file {classifier : Type} (applications : list application)
  : files classifier :=
  {| MODEL_FILE := None; loan_applications_csv := Some applications |}.

Definition app (s : string) : application :=
  {| app_features := scenario_features; status := s |}.

(** Nine decided applications among pending ones, and a tenth. *)
Definition nine_decided : list application :=
  [ app "approved"; app "rejected"; app "pending"; app "approved"; app "approved";
    app "rejected"; app "pending"; app "approved"; app "rejected"; app "approved";
    app "rejected" ].

Definition ten_decided : list application := nine_decided ++ [app "approved"].

(** ** utils.py *)

(** Lines 43-49: [calculate_dti_ratio]. *)
Definition calculate_dti_ratio (monthly_debt annual_income : float64) : result float64 :=
  if leb annual_income (of_int 0) then Ok (Inf false)
  else
    do monthly_income <- truediv annual_income (of_int 12) ;
    truediv monthly_debt monthly_income.

(** [x == y] on floats: NaN equals nothing. *)
Definition float_eqb (x y : float64) : bool :=
  match x, y with
  | Fin a, Fin b => Qeq_bool a b
  | Inf a, Inf b => Bool.eqb a b
  | _, _ => false
  end.

(** Lines 24-41: [calculate_monthly_payment], called with a float amount, the
    integer number of years and the float rate 5.99.  The power [x ** n]
    is the one of the C library, which Python calls after converting the
    integer exponent to a float; it raises OverflowError when the result is
    out of range. *)
Section MonthlyPayment.

Variable float_pow : float64 -> float64 -> result float64.

Definition calculate_monthly_payment (loan_amount : float64) (loan_term : Z)
    (interest_rate : float64) : result pyval :=
  if (loan_term <=? 0)%Z || leb loan_amount (of_int 0) then Ok (PyInt 0)
  else
    do rate <- truediv interest_rate (of_int 100) ;
    do monthly_rate <- truediv rate (of_int 12) ;
    let loan_term_months := (loan_term * 12)%Z in
    if float_eqb monthly_rate (of_int 0) then
      do months <- py_float (PyInt loan_term_months) ;
      do monthly_payment <- truediv loan_amount months ;
      Ok (PyFloat monthly_payment)
    else
      do months <- py_float (PyInt loan_term_months) ;
      do growth <- float_pow (add (of_int 1) monthly_rate) months ;
      let numerator := mul loan_amount (mul monthly_rate growth) in
      do growth' <- float_pow (add (of_int 1) monthly_rate) months ;
      do monthly_payment <- truediv numerator (sub growth' (of_int 1)) ;
      Ok (PyFloat monthly_payment).

End MonthlyPayment.

(** *** The 43% warning of the pages

    [01_Apply_for_Loan.py], lines 196-202: the form shows a warning when
    [dti_ratio > 43]; nothing is computed without a positive income. *)
Definition form_dti_warning (monthly_debt annual_income : float64) : result bool :=
  if gtb annual_income (of_int 0) then
    do monthly_income <- truediv annual_income (of_int 12) ;
    do ratio <- truediv monthly_debt monthly_income ;
    let dti_ratio := mul ratio (of_int 100) in
    Ok (gtb dti_ratio (of_int 43))
  else Ok false.

(** [03_Officer_Dashboard.py], lines 141-145. *)
Definition dashboard_dti_warning (monthly_debt annual_income : float64) : result bool :=
  do ratio <- calculate_dti_ratio monthly_debt annual_income ;
  let dti_ratio := mul ratio (of_int 100) in
  Ok (gtb dti_ratio (of_int 43)).

(** *** Regular expressions

    A string is the list of its characters; the type [ascii] stands for the
    code points below 256, which is enough for [validate_email]: its classes
    hold ASCII characters only, so a string with a character beyond them is
    refused.  The pattern uses classes of characters, concatenation and
    repetition; [re.match] finds a match whenever one exists, so matching
    is membership in the language of the pattern, computed here with
    derivatives. *)

Section RegularExpressions.

Import Stdlib.Strings.Ascii Stdlib.Strings.String.
Local Open Scope char_scope.

Inductive regex : Type :=
  | Void
  | Eps
  | Chr (class : ascii -> bool)
  | Cat (r s : regex)
  | Alt (r s : regex)
  | Star (r : regex).

Fixpoint nullable (r : regex) : bool :=
  match r with
  | Void => false
  | Eps => true
  | Chr _ => false
  | Cat r s => nullable r && nullable s
  | Alt r s => nullable r || nullable s
  | Star _ => true
  end.

Fixpoint deriv (c : ascii) (r : regex) : regex :=
  match r with
  | Void => Void
  | Eps => Void
  | Chr class => if class c then Eps else Void
  | Cat r s =>
      if nullable r then Alt (Cat (deriv c r) s) (deriv c s) else Cat (deriv c r) s
  | Alt r s => Alt (deriv c r) (deriv c s)
  | Star r => Cat (deriv c r) (Star r)
  end.

Fixpoint fullmatch (r : regex) (s : list ascii) : bool :=
  match s with
  | [] => nullable r
  | c :: s' => fullmatch (deriv c r) s'
  end.

(** [r+], [r{n}] and [r{n,}] *)
Definition Plus (r : regex) : regex := Cat r (Star r).

Fixpoint Repeat (n : nat) (r : regex) : regex :=
  match n with
  | O => Eps
  | S n' => Cat r (Repeat n' r)
  end.

Definition AtLeast (n : nat) (r : regex) : regex := Cat (Repeat n r) (Star r).

(** [$] at the end of a pattern: the end of the string, or the newline that
    ends the string. *)
Definition newline : ascii := "010".
Definition dollar : regex := Alt Eps (Chr (Strings.Ascii.eqb newline)).

(** [bool(re.match("^" r "$", s))] *)
Definition re_match (r : regex) (s : list ascii) : bool := fullmatch (Cat r dollar) s.

(** The classes [a-zA-Z] and [0-9]. *)
Definition between (lo hi c : ascii) : bool :=
  (N_of_ascii lo <=? N_of_ascii c)%N && (N_of_ascii c <=? N_of_ascii hi)%N.

Definition one_of (chars : string) (c : ascii) : bool :=
  existsb (Strings.Ascii.eqb c) (list_ascii_of_string chars).

Definition is_letter (c : ascii) : bool := between "a" "z" c || between "A" "Z" c.
Definition is_digit (c : ascii) : bool := between "0" "9" c.

(** Lines 9-12: [validate_email], with the pattern
    [^[a-zA-Z0-9._%+-]+@[a-zA-Z0-9.-]+\.[a-zA-Z]{2,}$]. *)
Definition email_local (c : ascii) : bool := is_letter c || is_digit c || one_of "._%+-"%string c.
Definition email_domain (c : ascii) : bool := is_letter c || is_digit c || one_of ".-"%string c.

Definition email_pattern : regex :=
  Cat (Plus (Chr email_local))
      (Cat (Chr (Strings.Ascii.eqb "@"))
           (Cat (Plus (Chr email_domain))
                (Cat (Chr (Strings.Ascii.eqb "."))
                     (AtLeast 2 (Chr is_letter))))).

Definition validate_email (email : list ascii) : bool := re_match email_pattern email.

(** The language of a pattern. *)
Inductive Matches : regex -> list ascii -> Prop :=
  | MEps : Matches Eps []
  | MChr (class : ascii -> bool) (c : ascii) : class c = true -> Matches (Chr class) [c]
  | MCat (r s : regex) (u v : list ascii) :
      Matches r u -> Matches s v -> Matches (Cat r s) (u ++ v)
  | MAltL (r s : regex) (u : list ascii) : Matches r u -> Matches (Alt r s) u
  | MAltR (r s : regex) (u : list ascii) : Matches s u -> Matches (Alt r s) u
  | MStarNil (r : regex) : Matches (Star r) []
  | MStarApp (r : regex) (u v : list ascii) :
      Matches r u -> Matches (Star r) v -> Matches (Star r) (u ++ v).

End RegularExpressions.

(** *** validate_phone, lines 14-18

    The pattern of [validate_email] has classes of ASCII characters only;
    the two patterns of [validate_phone] have [\s] and [\d], which on a
    Python string are the white space and the decimal digits of Unicode.
    A string is here the list of its code points.  The white space is the
    same in every version of Unicode a Python 3 interpreter carries; the
    decimal digits (the category Nd) grow with the version, so the
    validator takes their class as [is_decimal], and [unicode_14_decimal]
    is the class of Python 3.11. *)

Definition in_ranges (ranges : list (N * N)) (c : N) : bool :=
  existsb (fun range => N.leb (fst range) c && N.leb c (snd range)) ranges.

(** Whether two ranges lie apart. *)
Definition apart (r1 r2 : N * N) : bool :=
  N.ltb (snd r1) (fst r2) || N.ltb (snd r2) (fst r1).

(** [\s]: tab to carriage return, the separators 28 to 31 and the space,
    the next-line character, the no-break space, and the spaces beyond
    Latin-1, the ideographic space U+3000 the last. *)
Definition white_space : list (N * N) :=
  [ (9, 13); (28, 32); (133, 133); (160, 160); (5760, 5760); (8192, 8202);
    (8232, 8233); (8239, 8239); (8287, 8287); (12288, 12288) ]%N.

Definition is_space (c : N) : bool := in_ranges white_space c.

(** The class [[\s\-\(\)\.]]: the hyphen is 45, the parentheses 40 and 41,
    the dot 46. *)
Definition phone_separator (c : N) : bool :=
  is_space c || N.eqb c 45 || N.eqb c 40 || N.eqb c 41 || N.eqb c 46.

(** [re.sub("[class]", "", s)] *)
Definition re_sub_class (class : N -> bool) (s : list N) : list N :=
  List.filter (fun c => negb (class c)) s.

Section ValidatePhone.

Variable is_decimal : N -> bool.

(** [bool(re.match("^\d{n}$", s))]: n decimal digits, then the end of the
    string or the newline, 10, that ends it. *)
Fixpoint match_digits (n : nat) (s : list N) : bool :=
  match n, s with
  | O, [] => true
  | O, [c] => N.eqb c 10
  | O, _ :: _ :: _ => false
  | S _, [] => false
  | S n', c :: s' => is_decimal c && match_digits n' s'
  end.

Definition validate_phone (phone : list N) : bool :=
  let cleaned_phone := re_sub_class phone_separator phone in
  match_digits 10 cleaned_phone.

End ValidatePhone.

(** The decimal digits of Unicode 14.0: the ASCII digits, the Arabic-Indic
    digits from U+0660, and sixty more runs. *)
Definition unicode_14_decimal_ranges : list (N * N) :=
  [ (48, 57); (1632, 1641); (1776, 1785); (1984, 1993); (2406, 2415);
    (2534, 2543); (2662, 2671); (2790, 2799); (2918, 2927); (3046, 3055);
    (3174, 3183); (3302, 3311); (3430, 3439); (3558, 3567); (3664, 3673);
    (3792, 3801); (3872, 3881); (4160, 4169); (4240, 4249); (6112, 6121);
    (6160, 6169); (6470, 6479); (6608, 6617); (6784, 6793); (6800, 6809);
    (6992, 7001); (7088, 7097); (7232, 7241); (7248, 7257); (42528, 42537);
    (43216, 43225); (43264, 43273); (43472, 43481); (43504, 43513);
    (43600, 43609); (44016, 44025); (65296, 65305); (66720, 66729);
    (68912, 68921); (69734, 69743); (69872, 69881); (69942, 69951);
    (70096, 70105); (70384, 70393); (70736, 70745); (70864, 70873);
    (71248, 71257); (71360, 71369); (71472, 71481); (71904, 71913);
    (72016, 72025); (72784, 72793); (73040, 73049); (73120, 73129);
    (92768, 92777); (92864, 92873); (93008, 93017); (120782, 120831);
    (123200, 123209); (123632, 123641); (125264, 125273); (130032, 130041) ]%N.

Definition unicode_14_decimal (c : N) : bool := in_ranges unicode_14_decimal_ranges c.

(** A phone number in Arabic-Indic digits, with parentheses, an ideographic
    space and a hyphen. *)
Definition arabic_indic_phone : list N :=
  [ 40; 1632; 1633; 1634; 41; 12288; 1635; 1636; 1637; 45; 1638; 1639; 1640; 1641 ]%N.


(** * Properties *)

(** ** Rounding to binary64 *)

Module F64Facts.
Import F64.
Local Open Scope Q_scope.

Lemma Qltb_lt (a b : Q) : Qltb a b = true <-> a < b.
Proof. unfold Qltb. rewrite Qlt_alt. destruct (a ?= b); split; congruence. Qed.

Lemma Qltb_ge (a b : Q) : Qltb a b = false <-> b <= a.
Proof.
  split; intros H.
  - apply Qnot_lt_le. intros Hlt. apply Qltb_lt in Hlt. congruence.
  - destruct (Qltb a b) eqn:E; [|reflexivity].
    apply Qltb_lt in E. exfalso. apply (Qlt_not_le _ _ E H).
Qed.

Lemma pow2_pos (e : Z) : 0 < pow2 e.
Proof. apply Qpower_0_lt. reflexivity. Qed.

Lemma pow2_add (a b : Z) : pow2 (a + b) == pow2 a * pow2 b.
Proof. apply Qpower_plus. discriminate. Qed.

Lemma pow2_succ (a : Z) : pow2 (a + 1) == 2 * pow2 a.
Proof. rewrite pow2_add. unfold pow2 at 2. simpl. ring. Qed.

Lemma pow2_le (a b : Z) : (a <= b)%Z -> pow2 a <= pow2 b.
Proof. intros H. apply Qpower_le_compat_l; [exact H | discriminate]. Qed.

Lemma pow2_lt_inv (a b : Z) : pow2 a < pow2 b -> (a < b)%Z.
Proof. intros H. apply (Qpower_lt_compat_l_inv 2); [exact H | reflexivity]. Qed.

Lemma pow2_Z (n : Z) : (0 <= n)%Z -> pow2 n == inject_Z (2 ^ n).
Proof. intros H. unfold pow2. rewrite (Zpower_Qpower 2 n H). reflexivity. Qed.

(** *** The binade *)

Lemma binade_aux (q N D Pa Pb Pk : Q) :
  q * D == N -> Pb <= D -> D < 2 * Pb -> Pa <= N -> N < 2 * Pa ->
  Pa == Pk * Pb -> 0 < Pk -> 0 < Pb ->
  (Pk <= q -> q < 2 * Pk) /\ (q < Pk -> Pk <= 2 * q).
Proof.
  intros Hqd Hb1 Hb2 Ha1 Ha2 Hab Hk Hpb. split; intros Hq.
  - apply Qnot_le_lt. intros Hc.
    assert (H1 : 2 * Pk * D <= q * D).
    { apply Qmult_le_compat_r; [exact Hc | lra]. }
    assert (H2 : (2 * Pk) * Pb <= (2 * Pk) * D).
    { apply Qmult_le_l; [lra | exact Hb1]. }
    nra.
  - apply Qnot_lt_le. intros Hc.
    assert (H1 : (2 * q) * D <= Pk * D).
    { apply Qmult_le_compat_r; lra. }
    assert (H2 : Pk * D < Pk * (2 * Pb)).
    { apply Qmult_lt_l; [exact Hk | exact Hb2]. }
    nra.
Qed.

Lemma ilog2_spec (q : Q) :
  0 < q -> pow2 (ilog2 q) <= q /\ q < pow2 (ilog2 q + 1).
Proof.
  intros Hq. destruct q as [n d].
  assert (Hn : (0 < n)%Z).
  { unfold Qlt in Hq. simpl in Hq. lia. }
  unfold ilog2. cbn [Qnum Qden].
  set (a := Z.log2 n). set (b := Z.log2 (Z.pos d)).
  destruct (Z.log2_spec n Hn) as [Ha1 Ha2].
  destruct (Z.log2_spec (Z.pos d) (Pos2Z.is_pos d)) as [Hb1 Hb2].
  fold a in Ha1, Ha2. fold b in Hb1, Hb2.
  assert (Ha0 : (0 <= a)%Z) by apply Z.log2_nonneg.
  assert (Hb0 : (0 <= b)%Z) by apply Z.log2_nonneg.
  rewrite Zle_Qle, <- pow2_Z in Ha1, Hb1 by assumption.
  rewrite Zlt_Qlt, <- pow2_Z in Ha2, Hb2 by lia.
  replace (Z.succ a) with (a + 1)%Z in Ha2 by lia.
  replace (Z.succ b) with (b + 1)%Z in Hb2 by lia.
  rewrite pow2_succ in Ha2, Hb2.
  assert (Hab : pow2 a == pow2 (a - b) * pow2 b).
  { rewrite <- pow2_add. replace (a - b + b)%Z with a by lia. reflexivity. }
  assert (Hqd : (n # d) * inject_Z (Z.pos d) == inject_Z n).
  { unfold Qeq, Qmult, inject_Z. simpl. lia. }
  destruct (binade_aux _ _ _ _ _ _ Hqd Hb1 Hb2 Ha1 Ha2 Hab (pow2_pos _) (pow2_pos _))
    as [Hup Hlo].
  destruct (Qle_bool (pow2 (a - b)) (n # d)) eqn:E.
  - apply Qle_bool_iff in E. split; [exact E|].
    rewrite pow2_succ. apply Hup, E.
  - assert (E' : (n # d) < pow2 (a - b)).
    { apply Qnot_le_lt. intros Hc. apply Qle_bool_iff in Hc. congruence. }
    replace (a - b - 1 + 1)%Z with (a - b)%Z by lia.
    split; [|exact E'].
    assert (Hk1 : pow2 (a - b) == 2 * pow2 (a - b - 1)).
    { rewrite <- pow2_succ. replace (a - b - 1 + 1)%Z with (a - b)%Z by lia. reflexivity. }
    specialize (Hlo E'). lra.
Qed.

Lemma ilog2_unique (q : Q) (k : Z) :
  pow2 k <= q -> q < pow2 (k + 1) -> ilog2 q = k.
Proof.
  intros H1 H2.
  assert (Hq : 0 < q) by (pose proof (pow2_pos k); lra).
  destruct (ilog2_spec q Hq) as [H3 H4].
  assert (ilog2 q < k + 1)%Z by (apply pow2_lt_inv; lra).
  assert (k < ilog2 q + 1)%Z by (apply pow2_lt_inv; lra).
  lia.
Qed.

Lemma ilog2_mono (p q : Q) : 0 < p -> p <= q -> (ilog2 p <= ilog2 q)%Z.
Proof.
  intros Hp Hpq.
  destruct (ilog2_spec p Hp) as [H1 _].
  destruct (ilog2_spec q) as [_ H2]; [lra|].
  assert (ilog2 p < ilog2 q + 1)%Z by (apply pow2_lt_inv; lra).
  lia.
Qed.

(** *** Nearest integer *)

Lemma rne_bounds (x : Q) : (Qfloor x <= rne x <= Qfloor x + 1)%Z.
Proof.
  unfold rne. destruct (x - inject_Z (Qfloor x) ?= 1 # 2); [destruct (Z.even _)| |]; lia.
Qed.

Lemma rne_mono (x y : Q) : x <= y -> (rne x <= rne y)%Z.
Proof.
  intros Hxy.
  pose proof (Qfloor_resp_le _ _ Hxy) as Hf.
  pose proof (rne_bounds x) as Bx. pose proof (rne_bounds y) as By.
  destruct (Z.eq_dec (Qfloor x) (Qfloor y)) as [E|NE]; [|lia].
  revert Bx By. unfold rne. rewrite <- E. intros Bx By.
  destruct (Qcompare_spec (x - inject_Z (Qfloor x)) (1 # 2)) as [Hx|Hx|Hx];
  destruct (Qcompare_spec (y - inject_Z (Qfloor x)) (1 # 2)) as [Hy|Hy|Hy];
  try destruct (Z.even (Qfloor x)); try lia; exfalso; lra.
Qed.

Lemma rne_Z (z : Z) : rne (inject_Z z) = z.
Proof.
  unfold rne. rewrite Qfloor_Z.
  destruct (Qcompare_spec (inject_Z z - inject_Z z) (1 # 2)) as [H|H|H];
    [exfalso; lra | reflexivity | exfalso; lra].
Qed.

Lemma rne_comp (x y : Q) : x == y -> rne x = rne y.
Proof.
  intros H. unfold rne. rewrite (Qfloor_comp _ _ H).
  assert (E : (x - inject_Z (Qfloor y) ?= 1 # 2) = (y - inject_Z (Qfloor y) ?= 1 # 2)).
  { apply Qcompare_comp; [rewrite H; reflexivity | reflexivity]. }
  rewrite E. reflexivity.
Qed.

Lemma rne_ge (z : Z) (x : Q) : inject_Z z <= x -> (z <= rne x)%Z.
Proof. intros H. rewrite <- (rne_Z z). apply rne_mono, H. Qed.

Lemma rne_le (z : Z) (x : Q) : x <= inject_Z z -> (rne x <= z)%Z.
Proof. intros H. rewrite <- (rne_Z z). apply rne_mono, H. Qed.


(** *** The order of binary64 numbers *)

Lemma leb_Fin (a b : Q) : leb (Fin a) (Fin b) = true <-> a <= b.
Proof. simpl. apply Qle_bool_iff. Qed.

Ltac by_cases_bool :=
  simpl;
  repeat match goal with b : bool |- _ => destruct b end;
  simpl; try congruence.

Lemma leb_trans (x y z : float64) :
  leb x y = true -> leb y z = true -> leb x z = true.
Proof.
  destruct x as [|a|a], y as [|b|b], z as [|c|c]; by_cases_bool.
  rewrite !Qle_bool_iff. intros; lra.
Qed.

Lemma leb_not_NaN (x y : float64) : leb x y = true -> x <> NaN /\ y <> NaN.
Proof. destruct x, y; simpl; split; congruence. Qed.

Lemma leb_ltb_false (x y : float64) : leb x y = true -> ltb y x = false.
Proof.
  destruct x as [|a|a], y as [|b|b]; by_cases_bool.
  rewrite Qltb_ge, Qle_bool_iff. intros; lra.
Qed.

Lemma ltb_leb_false (x y : float64) : ltb x y = true -> leb y x = false.
Proof.
  intros H. destruct (leb y x) eqn:E; [|reflexivity].
  apply leb_ltb_false in E. congruence.
Qed.

Lemma leb_neg (x y : float64) : leb x y = true -> leb (neg y) (neg x) = true.
Proof.
  destruct x as [|a|a], y as [|b|b]; by_cases_bool.
  rewrite !Qle_bool_iff, !Qred_correct. intros; lra.
Qed.

Lemma leb_between (a b : Q) (x : float64) :
  leb (Fin a) x = true -> leb x (Fin b) = true ->
  exists q, x = Fin q /\ a <= q <= b.
Proof.
  destruct x as [|s|q]; by_cases_bool.
  rewrite !Qle_bool_iff. intros. exists q. split; [reflexivity | lra].
Qed.

(** *** Rounding is monotone *)

Lemma Qdiv_mult_cancel (x y : Q) : 0 < y -> x / y * y == x.
Proof. intros Hy. field. lra. Qed.

Lemma rval_nonneg (q : Q) : 0 < q -> 0 <= rval q.
Proof.
  intros Hq. unfold rval.
  pose proof (pow2_pos (rexp q)) as He.
  apply Qmult_le_0_compat; [|lra].
  change 0 with (inject_Z 0). rewrite <- Zle_Qle. apply rne_ge.
  apply Qle_shift_div_l; [exact He|].
  change (inject_Z 0) with 0. rewrite Qmult_0_l. lra.
Qed.

Lemma rval_mono (p q : Q) : 0 < p -> p <= q -> rval p <= rval q.
Proof.
  intros Hp Hpq.
  assert (Hq : 0 < q) by lra.
  pose proof (ilog2_mono p q Hp Hpq) as Hk.
  destruct (ilog2_spec p Hp) as [Hp1 Hp2].
  destruct (ilog2_spec q Hq) as [Hq1 Hq2].
  unfold rval, rexp.
  set (kp := ilog2 p) in *. set (kq := ilog2 q) in *.
  set (ep := Z.max (kp - 52) (-1074)). set (eq := Z.max (kq - 52) (-1074)).
  pose proof (pow2_pos ep) as Hep. pose proof (pow2_pos eq) as Heq.
  destruct (Z.eq_dec ep eq) as [E|NE].
  - rewrite <- E.
    apply Qmult_le_compat_r; [|lra].
    rewrite <- Zle_Qle. apply rne_mono.
    apply Qle_shift_div_l; [exact Hep|].
    rewrite Qdiv_mult_cancel by exact Hep. exact Hpq.
  - assert (Hlt : (ep < eq)%Z) by lia.
    assert (Eq : eq = (kq - 52)%Z) by lia.
    assert (Hkk : (kp + 1 <= kq)%Z) by lia.
    assert (Hd : (0 <= kq - ep)%Z) by lia.
    apply Qle_trans with (pow2 kq).
    + assert (Hs : pow2 kq == inject_Z (2 ^ (kq - ep)) * pow2 ep).
      { rewrite <- pow2_Z by exact Hd. rewrite <- pow2_add.
        replace (kq - ep + ep)%Z with kq by lia. reflexivity. }
      rewrite Hs.
      apply Qmult_le_compat_r; [|lra].
      rewrite <- Zle_Qle. apply rne_le.
      apply Qle_shift_div_r; [exact Hep|].
      rewrite <- Hs.
      pose proof (pow2_le (kp + 1) kq Hkk). lra.
    + assert (Hs : pow2 kq == inject_Z (2 ^ 52) * pow2 eq).
      { rewrite <- pow2_Z by lia. rewrite <- pow2_add.
        replace (52 + eq)%Z with kq by lia. reflexivity. }
      rewrite Hs.
      apply Qmult_le_compat_r; [|lra].
      rewrite <- Zle_Qle. apply rne_ge.
      apply Qle_shift_div_l; [exact Heq|].
      rewrite <- Hs. exact Hq1.
Qed.

Lemma round_pos_nonneg (q : Q) : 0 < q -> leb (Fin 0) (round_pos q) = true.
Proof.
  intros Hq. unfold round_pos.
  destruct (Qle_bool (pow2 1024) (rval q)); [reflexivity|].
  apply leb_Fin. rewrite Qred_correct. apply rval_nonneg, Hq.
Qed.

Lemma round_pos_mono (p q : Q) :
  0 < p -> p <= q -> leb (round_pos p) (round_pos q) = true.
Proof.
  intros Hp Hpq. pose proof (rval_mono p q Hp Hpq) as Hv.
  unfold round_pos.
  destruct (Qle_bool (pow2 1024) (rval q)) eqn:Eq.
  - destruct (Qle_bool (pow2 1024) (rval p)); reflexivity.
  - destruct (Qle_bool (pow2 1024) (rval p)) eqn:Ep.
    + apply Qle_bool_iff in Ep.
      assert (Hc : Qle_bool (pow2 1024) (rval q) = true) by (apply Qle_bool_iff; lra).
      congruence.
    + apply leb_Fin. rewrite !Qred_correct. exact Hv.
Qed.

Lemma round_mono (a b : Q) : a <= b -> leb (round a) (round b) = true.
Proof.
  intros Hab. unfold round.
  destruct (Qcompare_spec a 0) as [Ha|Ha|Ha];
  destruct (Qcompare_spec b 0) as [Hb|Hb|Hb]; try (exfalso; lra).
  - reflexivity.
  - apply round_pos_nonneg, Hb.
  - change (Fin 0) with (neg (Fin 0)). apply leb_neg, round_pos_nonneg. lra.
  - apply leb_neg, round_pos_mono; lra.
  - apply leb_trans with (Fin 0).
    + change (Fin 0) with (neg (Fin 0)). apply leb_neg, round_pos_nonneg. lra.
    + apply round_pos_nonneg, Hb.
  - apply round_pos_mono; lra.
Qed.

Lemma round_comp (a b : Q) : a == b -> round a = round b.
Proof.
  intros Hab. unfold round.
  rewrite (Qcompare_comp a b Hab 0 0 (Qeq_refl 0)).
  assert (Hpos : forall x y, 0 < x -> x == y -> round_pos x = round_pos y).
  { intros x y Hx Hxy. unfold round_pos.
    assert (Ek : rexp x = rexp y).
    { unfold rexp. f_equal. f_equal.
      destruct (ilog2_spec x Hx) as [H1 H2].
      symmetry. apply ilog2_unique; rewrite <- Hxy; assumption. }
    assert (Ev : rval x = rval y).
    { unfold rval. rewrite Ek. f_equal. f_equal. apply rne_comp. rewrite Hxy. reflexivity. }
    rewrite Ev. reflexivity. }
  destruct (Qcompare_spec b 0) as [Hb|Hb|Hb].
  - reflexivity.
  - f_equal. apply Hpos; [lra | rewrite Hab; reflexivity].
  - apply Hpos; [lra | exact Hab].
Qed.

Lemma round_between (a b a' b' q : Q) :
  round a = Fin a' -> round b = Fin b' -> a <= q <= b ->
  exists r, round q = Fin r /\ a' <= r <= b'.
Proof.
  intros Ha Hb [H1 H2].
  apply leb_between.
  - rewrite <- Ha. apply round_mono, H1.
  - rewrite <- Hb. apply round_mono, H2.
Qed.

Lemma round_not_NaN (q : Q) : round q <> NaN.
Proof.
  pose proof (round_mono q q (Qle_refl q)) as H.
  apply leb_not_NaN in H. tauto.
Qed.

Lemma leb_top (x : float64) : x <> NaN -> leb x (Inf false) = true.
Proof. destruct x as [|s|q]; by_cases_bool. Qed.

Lemma leb_bot (x : float64) : x <> NaN -> leb (Inf true) x = true.
Proof. destruct x as [|s|q]; by_cases_bool. Qed.

Lemma add_mono_l (x y : float64) (k : Q) :
  leb x y = true -> leb (add x (Fin k)) (add y (Fin k)) = true.
Proof.
  destruct x as [|a|a], y as [|b|b]; by_cases_bool; intros H.
  - apply leb_bot, round_not_NaN.
  - apply leb_top, round_not_NaN.
  - apply round_mono. apply Qle_bool_iff in H. lra.
Qed.

Lemma sub_mono_l (x y : float64) (k : Q) :
  leb x y = true -> leb (sub x (Fin k)) (sub y (Fin k)) = true.
Proof. intros H. unfold sub. simpl neg. apply add_mono_l, H. Qed.

Lemma mul_mono_r (k a b : Q) :
  0 <= k -> a <= b -> leb (mul (Fin k) (Fin a)) (mul (Fin k) (Fin b)) = true.
Proof.
  intros Hk Hab. simpl. apply round_mono.
  rewrite (Qmult_comm k a), (Qmult_comm k b). apply Qmult_le_compat_r; assumption.
Qed.

Lemma mul_mono_l (k a b : Q) :
  0 <= k -> a <= b -> leb (mul (Fin a) (Fin k)) (mul (Fin b) (Fin k)) = true.
Proof.
  intros Hk Hab. simpl. apply round_mono. apply Qmult_le_compat_r; assumption.
Qed.

Lemma quotient_mono_l (x y : float64) (d : Q) :
  0 < d -> leb x y = true -> leb (quotient x (Fin d)) (quotient y (Fin d)) = true.
Proof.
  intros Hd.
  assert (Hn : Qltb d 0 = false) by (apply Qltb_ge; lra).
  destruct x as [|a|a], y as [|b|b]; simpl; rewrite ?Hn; by_cases_bool; intros H.
  - apply leb_bot, round_not_NaN.
  - apply leb_top, round_not_NaN.
  - apply round_mono. apply Qle_bool_iff in H.
    apply Qmult_le_compat_r; [exact H|]. apply Qlt_le_weak, Qinv_lt_0_compat, Hd.
Qed.

End F64Facts.

Import F64Facts.
Local Open Scope Q_scope.

(** ** Agreement with the primitive binary64 numbers

    The operations of [F64] and the primitive operations of the kernel, on
    the numbers of the concrete scenario and on two inexact products. *)

#[local] Set Warnings "-inexact-float".

Lemma agreement_with_primitive_floats :
  of_prim 0.24 = lit 0.24 /\
  of_prim (50000 / 12) = quotient (of_int 50000) (of_int 12) /\
  of_prim (1000 / (50000 / 12)) = quotient (of_int 1000) (quotient (of_int 50000) (of_int 12)) /\
  of_prim (1 - 0.24) = sub (of_int 1) (lit 0.24) /\
  of_prim ((700 - 300) / 500) = quotient (sub (of_int 700) (of_int 300)) (of_int 500) /\
  of_prim (0.5 + 0.2 * 0.8 + 0.15 * 0.76 + 0.15 * 0.8)
  = add (add (add (lit 0.5) (mul (lit 0.2) (lit 0.8))) (mul (lit 0.15) (lit 0.76)))
        (mul (lit 0.15) (lit 0.8)) /\
  of_prim (0.894 * 100) = mul (lit 0.894) (of_int 100) /\
  of_prim (0.58 * 100) = mul (lit 0.58) (of_int 100) /\
  of_prim (0.1 + 0.2) = add (lit 0.1) (lit 0.2) /\
  of_prim (0.05 * 100) = of_int 5 /\
  of_prim (0.95 * 100) = of_int 95.
Proof. repeat split; vm_compute; reflexivity. Qed.

(** ** The arithmetic of the rule-based scorer *)

(** *** Clamping with [max(a, min(b, x))] *)

Lemma clamp_range (a b : Q) (x : float64) :
  a <= b -> exists q, py_max (Fin a) (py_min (Fin b) x) = Fin q /\ a <= q <= b.
Proof.
  intros Hab. unfold py_max, py_min, gtb.
  destruct x as [|s|q]; simpl.
  - destruct (Qltb a b); [exists b | exists a]; split; try reflexivity; lra.
  - destruct s; simpl.
    + exists a. split; [reflexivity | lra].
    + destruct (Qltb a b); [exists b | exists a]; split; try reflexivity; lra.
  - destruct (Qltb q b) eqn:E1; simpl.
    + destruct (Qltb a q) eqn:E2.
      * apply Qltb_lt in E1, E2. exists q. split; [reflexivity | lra].
      * exists a. split; [reflexivity | lra].
    + destruct (Qltb a b); [exists b | exists a]; split; try reflexivity; lra.
Qed.

Lemma clamp_mono (a b : Q) (x y : float64) :
  a <= b -> leb x y = true ->
  leb (py_max (Fin a) (py_min (Fin b) x)) (py_max (Fin a) (py_min (Fin b) y)) = true.
Proof.
  intros Hab. unfold py_max, py_min, gtb.
  destruct x as [|s|p], y as [|t|q]; simpl; try congruence;
    try destruct s; try destruct t; simpl; try congruence; intros H;
    repeat match goal with
    | |- context [Qltb ?u ?v] =>
        let E := fresh "E" in
        destruct (Qltb u v) eqn:E; [apply Qltb_lt in E | apply Qltb_ge in E]; simpl
    end;
    try apply Qle_bool_iff in H; apply Qle_bool_iff; lra.
Qed.

Lemma of_int_0 : of_int 0 = Fin 0.
Proof. reflexivity. Qed.

Lemma of_int_1 : of_int 1 = Fin 1.
Proof. vm_compute. reflexivity. Qed.

Lemma of_int_100 : of_int 100 = Fin 100.
Proof. vm_compute. reflexivity. Qed.

Lemma truediv_Fin (x : float64) (d : Q) :
  ~ d == 0 -> truediv x (Fin d) = Ok (quotient x (Fin d)).
Proof.
  intros Hd. unfold truediv, div. simpl.
  destruct (Qeq_bool d 0) eqn:E; [|reflexivity].
  apply Qeq_bool_eq in E. contradiction.
Qed.

Lemma truediv_pos (x y : float64) :
  gtb y (of_int 0) = true -> truediv x y = Ok (quotient x y).
Proof.
  rewrite of_int_0. unfold gtb, truediv, div.
  destruct y as [|s|q]; simpl; try congruence.
  intros H. apply Qltb_lt in H.
  destruct (Qeq_bool q 0) eqn:E; [|reflexivity].
  apply Qeq_bool_eq in E. lra.
Qed.

Lemma monthly_income_of_eq (annual_income : float64) :
  monthly_income_of annual_income = Ok (quotient annual_income (Fin 12)).
Proof. unfold monthly_income_of. apply truediv_Fin. discriminate. Qed.

Lemma dti_ratio_of_eq (monthly_debt monthly_income : float64) :
  dti_ratio_of monthly_debt monthly_income
  = Ok (guarded_ratio monthly_debt monthly_income (of_int 1)).
Proof.
  unfold dti_ratio_of, guarded_ratio.
  destruct (gtb monthly_income (of_int 0)) eqn:E; [|reflexivity].
  apply truediv_pos, E.
Qed.

Lemma loan_to_income_of_eq (loan_amount annual_income : float64) :
  loan_to_income_of loan_amount annual_income
  = Ok (guarded_ratio loan_amount annual_income (of_int 1)).
Proof.
  unfold loan_to_income_of, guarded_ratio.
  destruct (gtb annual_income (of_int 0)) eqn:E; [|reflexivity].
  apply truediv_pos, E.
Qed.

Lemma credit_factor_of_eq (credit_score : float64) :
  credit_factor_of credit_score = Ok (clamped_credit credit_score).
Proof.
  unfold credit_factor_of.
  change (of_int 500) with (Fin 500). change (of_int 300) with (Fin 300).
  rewrite of_int_0, of_int_1.
  rewrite truediv_Fin by discriminate. reflexivity.
Qed.

Lemma rule_probability_eq (r : features) :
  rule_probability r
  = Ok (combine (clamped_credit (of_int (credit_score r)))
          (dti_factor_of (guarded_ratio (monthly_debt r)
                            (quotient (annual_income r) (Fin 12)) (of_int 1)))
          (lti_factor_of (guarded_ratio (loan_amount r) (annual_income r) (of_int 1)))).
Proof.
  unfold rule_probability.
  rewrite monthly_income_of_eq. cbn [bind].
  rewrite dti_ratio_of_eq. cbn [bind].
  rewrite loan_to_income_of_eq. cbn [bind].
  rewrite credit_factor_of_eq. reflexivity.
Qed.

(** The constants of [combine]. *)
Lemma lit_0_5 : lit 0.5 = Fin (1 # 2).
Proof. vm_compute. reflexivity. Qed.

Lemma lit_weight (q : Q) :
  q = 0.2 \/ q = 0.15 ->
  exists k, lit q = Fin k /\ 0 <= k /\ round k = Fin k.
Proof.
  intros [-> | ->]; eexists; (split; [vm_compute; reflexivity|]);
    (split; [discriminate | vm_compute; reflexivity]).
Qed.

Lemma lit_bounds :
  exists lo hi, lit 0.05 = Fin lo /\ lit 0.95 = Fin hi /\
                5 <= lo * 100 /\ hi * 100 <= 95 /\ lo <= hi.
Proof.
  do 2 eexists. split; [vm_compute; reflexivity|]. split; [vm_compute; reflexivity|].
  repeat split; discriminate.
Qed.

Lemma unit_factor (x : float64) :
  exists q, py_max (of_int 0) (py_min (of_int 1) x) = Fin q /\ 0 <= q <= 1.
Proof. rewrite of_int_0, of_int_1. apply clamp_range. discriminate. Qed.

Lemma weighted_factor (k x : Q) :
  0 <= k -> round k = Fin k -> 0 <= x <= 1 ->
  exists a, mul (Fin k) (Fin x) = Fin a /\ 0 <= a <= k.
Proof.
  intros Hk Hr Hx. simpl.
  apply (round_between 0 k 0 k); [reflexivity | exact Hr |].
  split.
  - apply Qmult_le_0_compat; lra.
  - rewrite <- (Qmult_1_r k) at 2. rewrite (Qmult_comm k x), (Qmult_comm k 1).
    apply Qmult_le_compat_r; lra.
Qed.

Lemma add_mono_r (x y : float64) (k : Q) :
  leb x y = true -> leb (add (Fin k) x) (add (Fin k) y) = true.
Proof.
  destruct x as [|a|a], y as [|b|b]; by_cases_bool; intros H.
  - apply leb_bot, round_not_NaN.
  - apply leb_top, round_not_NaN.
  - apply round_mono. apply Qle_bool_iff in H. lra.
Qed.

(** The probability is clamped into [0.05, 0.95]. *)
Lemma combine_range (credit_factor dti_factor lti_factor : float64) :
  exists p, combine credit_factor dti_factor lti_factor = Fin p /\
            leb (lit 0.05) (Fin p) = true /\ leb (Fin p) (lit 0.95) = true.
Proof.
  destruct lit_bounds as (lo & hi & Hlo & Hhi & _ & _ & Hle).
  unfold combine. cbv zeta. rewrite Hlo, Hhi.
  match goal with |- context [py_min (Fin hi) ?s] =>
    destruct (clamp_range lo hi s Hle) as (p & Hp & Hp1 & Hp2) end.
  exists p. rewrite Hp. repeat split; apply Qle_bool_iff; assumption.
Qed.

(** The probability grows with the credit factor. *)
Lemma combine_mono (c c' d l : Q) :
  0 <= c -> c <= c' -> 0 <= d <= 1 -> 0 <= l <= 1 ->
  leb (combine (Fin c) (Fin d) (Fin l)) (combine (Fin c') (Fin d) (Fin l)) = true.
Proof.
  intros Hc Hcc Hd Hl.
  destruct lit_bounds as (lo & hi & Hlo & Hhi & _ & _ & Hle).
  destruct (lit_weight 0.2 (or_introl eq_refl)) as (k2 & Hk2 & Hk2pos & _).
  destruct (lit_weight 0.15 (or_intror eq_refl)) as (k15 & Hk15 & Hk15pos & Hk15r).
  destruct (weighted_factor k15 d Hk15pos Hk15r Hd) as (a & Ha & _).
  destruct (weighted_factor k15 l Hk15pos Hk15r Hl) as (b & Hb & _).
  unfold combine. cbv zeta. rewrite Hlo, Hhi, Hk2, Hk15, lit_0_5, Ha, Hb.
  apply clamp_mono; [exact Hle|].
  apply add_mono_l, add_mono_l, add_mono_r, mul_mono_r; assumption.
Qed.

(** *** The conversion [int(prob * 100)] *)

Lemma trunc_nonneg (q : Q) : 0 <= q -> trunc q = Qfloor q.
Proof.
  destruct q as [n d]. unfold Qle, trunc, Qfloor. simpl. intros H.
  apply Z.quot_div_nonneg; lia.
Qed.

Lemma score_of_prob_Fin (p : Q) :
  leb (lit 0.05) (Fin p) = true -> leb (Fin p) (lit 0.95) = true ->
  exists r, mul (Fin p) (of_int 100) = Fin r /\ 5 <= r <= 95 /\
            score_of_prob (Fin p) = Ok (Qfloor r).
Proof.
  destruct lit_bounds as (lo & hi & Hlo & Hhi & H5 & H95 & _).
  rewrite Hlo, Hhi, !leb_Fin. intros H1 H2.
  unfold score_of_prob. rewrite of_int_100.
  destruct (round_between 5 95 5 95 (p * 100)) as (r & Hr & Hr1 & Hr2).
  - vm_compute. reflexivity.
  - vm_compute. reflexivity.
  - lra.
  - exists r. simpl. rewrite Hr. split; [reflexivity|]. split; [lra|].
    simpl. rewrite trunc_nonneg by lra. reflexivity.
Qed.

Lemma score_of_prob_range (p : Q) :
  leb (lit 0.05) (Fin p) = true -> leb (Fin p) (lit 0.95) = true ->
  exists n, score_of_prob (Fin p) = Ok n /\ (5 <= n <= 95)%Z.
Proof.
  intros H1 H2. destruct (score_of_prob_Fin p H1 H2) as (r & _ & [Hr1 Hr2] & Hs).
  exists (Qfloor r). split; [exact Hs|].
  split.
  - rewrite <- (Qfloor_Z 5). apply Qfloor_resp_le. exact Hr1.
  - rewrite <- (Qfloor_Z 95). apply Qfloor_resp_le. exact Hr2.
Qed.

Lemma score_of_prob_mono (p p' : Q) (n n' : Z) :
  leb (lit 0.05) (Fin p) = true -> leb (Fin p') (lit 0.95) = true -> p <= p' ->
  score_of_prob (Fin p) = Ok n -> score_of_prob (Fin p') = Ok n' -> (n <= n')%Z.
Proof.
  intros H1 H2 Hpp Hn Hn'.
  assert (H1' : leb (lit 0.05) (Fin p') = true).
  { apply leb_trans with (Fin p); [exact H1 | apply leb_Fin, Hpp]. }
  assert (H2' : leb (Fin p) (lit 0.95) = true).
  { apply leb_trans with (Fin p'); [apply leb_Fin, Hpp | exact H2]. }
  destruct (score_of_prob_Fin p H1 H2') as (r & Hr & _ & Hs).
  destruct (score_of_prob_Fin p' H1' H2) as (r' & Hr' & _ & Hs').
  rewrite Hs in Hn. rewrite Hs' in Hn'. injection Hn as <-. injection Hn' as <-.
  apply Qfloor_resp_le.
  apply leb_Fin. rewrite <- Hr, <- Hr', of_int_100.
  apply mul_mono_l; [discriminate | exact Hpp].
Qed.

Lemma clamped_credit_range (credit_score : float64) :
  exists c, clamped_credit credit_score = Fin c /\ 0 <= c <= 1.
Proof. apply clamp_range. discriminate. Qed.


(** *** The rows of a frame *)

Lemma integer_dtype_int64 (column : list Z) :
  forallb in_int64 column = true -> integer_dtype column = dtype_int64.
Proof. intros H. unfold integer_dtype. rewrite H. reflexivity. Qed.

Lemma forallb_map_and {A : Type} (f g : A -> bool) (l : list A) :
  forallb (fun a => f a && g a) l = forallb f l && forallb g l.
Proof.
  induction l as [|a l IH]; [reflexivity|]. simpl. rewrite IH.
  destruct (f a), (g a), (forallb f l), (forallb g l); reflexivity.
Qed.

Lemma forallb_of_map {A B : Type} (f : A -> B) (p : B -> bool) (l : list A) :
  forallb p (map f l) = forallb (fun a => p (f a)) l.
Proof. induction l as [|a l IH]; [reflexivity|]. simpl. rewrite IH. reflexivity. Qed.

(** A frame whose integers are in the range of int64 has rows of floats. *)
Lemma int64_rows_float (X : list features) :
  forallb int64_row X = true -> float64_rows X = true.
Proof.
  unfold int64_row. rewrite !forallb_map_and. intros H.
  apply andb_true_iff in H as [H Hcs]. apply andb_true_iff in H as [Hlt Hel].
  unfold float64_rows.
  rewrite !integer_dtype_int64 by (rewrite forallb_of_map; assumption).
  reflexivity.
Qed.

Lemma int64_row_float (r : features) : int64_row r = true -> float64_rows [r] = true.
Proof. intros H. apply int64_rows_float. simpl. rewrite H. reflexivity. Qed.

Lemma row_probability_float (X : list features) (r : features) :
  float64_rows X = true -> row_probability X r = rule_probability r.
Proof.
  intros H. unfold row_probability, rule_probability, iloc_credit_score.
  rewrite H. reflexivity.
Qed.

(** The quotient of two Python integers is a float unless it is beyond
    the floats. *)
Lemma int_truediv_500 (a : Z) :
  (exists q, int_truediv a 500 = Ok (round (inject_Z a / 500)) /\
             round (inject_Z a / 500) = Fin q) \/
  (int_truediv a 500 = Raise OverflowError /\ ~ (Z.abs a < 2 ^ 1025)%Z).
Proof.
  unfold int_truediv. simpl (500 =? 0)%Z. cbv iota.
  change (inject_Z 500) with 500.
  destruct (Z.lt_ge_cases (Z.abs a) (2 ^ 1025)) as [Hlt|Hge].
  - left.
    assert (Hb : exists b, round (inject_Z (2 ^ 1023)) = Fin b)
      by (eexists; vm_compute; reflexivity).
    assert (Ha : exists b, round (inject_Z (- 2 ^ 1023)) = Fin b)
      by (eexists; vm_compute; reflexivity).
    destruct Ha as [lo Ha], Hb as [hi Hb].
    destruct (round_between _ _ _ _ (inject_Z a / 500) Ha Hb) as (q & Hq & _).
    + assert (E : (2 ^ 1025 = 4 * 2 ^ 1023)%Z) by reflexivity.
      rewrite E in Hlt.
      assert (P : (0 < 2 ^ 1023)%Z) by reflexivity.
      set (B := (2 ^ 1023)%Z) in *. clearbody B.
      split.
      * apply Qle_shift_div_l; [reflexivity|].
        change 500 with (inject_Z 500). rewrite <- inject_Z_mult, <- Zle_Qle. lia.
      * apply Qle_shift_div_r; [reflexivity|].
        change 500 with (inject_Z 500). rewrite <- inject_Z_mult, <- Zle_Qle. lia.
    + exists q. rewrite Hq. auto.
  - destruct (round (inject_Z a / 500)) as [|s|q] eqn:E.
    + exfalso. exact (round_not_NaN _ E).
    + right. split; [reflexivity | lia].
    + left. exists q. auto.
Qed.

(** Lines 74-75 give a factor between 0 and 1, or the OverflowError of
    the quotient of Python integers. *)
Lemma credit_factor_of_scalar_range (credit_score : scalar) :
  (exists c, credit_factor_of_scalar credit_score = Ok (Fin c) /\ 0 <= c <= 1) \/
  (exists z, credit_score = PyLong z /\
             credit_factor_of_scalar credit_score = Raise OverflowError /\
             ~ (Z.abs (z - 300) < 2 ^ 1025)%Z).
Proof.
  destruct credit_score as [x|z|z|z]; cbn [credit_factor_of_scalar].
  - left. rewrite credit_factor_of_eq.
    destruct (clamped_credit_range x) as (c & Hc & Hr). exists c. rewrite Hc. auto.
  - left. change (of_int 500) with (Fin 500). rewrite truediv_Fin by discriminate.
    cbn [bind]. destruct (unit_factor (quotient (of_int (wrap_int64 (z - 300))) (Fin 500)))
      as (c & Hc & Hr). exists c. rewrite Hc. auto.
  - left. change (of_int 500) with (Fin 500). rewrite truediv_Fin by discriminate.
    cbn [bind]. destruct (unit_factor (quotient (of_int (wrap_uint64 (z - 300))) (Fin 500)))
      as (c & Hc & Hr). exists c. rewrite Hc. auto.
  - destruct (int_truediv_500 (z - 300)) as [(q & E & Eq) | [E Hbig]].
    + left. rewrite E. cbn [bind].
      destruct (unit_factor (round (inject_Z (z - 300) / 500))) as (c & Hc & Hr).
      exists c. rewrite Hc. auto.
    + right. exists z. rewrite E. auto.
Qed.

(** The probability of a row: the blend of three factors between 0 and 1,
    or the OverflowError of the credit factor. *)
Lemma row_probability_cases (X : list features) (r : features) :
  (exists c d l,
     row_probability X r = Ok (combine (Fin c) (Fin d) (Fin l)) /\
     0 <= c <= 1 /\ 0 <= d <= 1 /\ 0 <= l <= 1) \/
  (row_probability X r = Raise OverflowError /\
   float64_rows X = false /\ ~ (Z.abs (credit_score r - 300) < 2 ^ 1025)%Z).
Proof.
  unfold row_probability. cbv zeta.
  rewrite monthly_income_of_eq. cbn [bind].
  rewrite dti_ratio_of_eq. cbn [bind].
  rewrite loan_to_income_of_eq. cbn [bind].
  destruct (unit_factor (sub (of_int 1)
              (guarded_ratio (monthly_debt r) (quotient (annual_income r) (Fin 12)) (of_int 1))))
    as (d & Hd & Hdq).
  destruct (unit_factor (sub (of_int 1)
              (guarded_ratio (loan_amount r) (annual_income r) (of_int 1))))
    as (l & Hl & Hlq).
  unfold dti_factor_of, lti_factor_of. rewrite Hd, Hl.
  destruct (credit_factor_of_scalar_range (iloc_credit_score X r))
    as [(c & Hc & Hcq) | (z & Ez & Hc & Hbig)].
  - left. exists c, d, l. rewrite Hc. auto.
  - right. rewrite Hc. split; [reflexivity|].
    unfold iloc_credit_score in Ez.
    destruct (float64_rows X); [discriminate Ez|]. split; [reflexivity|].
    destruct (integer_dtype (map credit_score X)); try discriminate Ez.
    injection Ez as <-. exact Hbig.
Qed.

Lemma row_probability_ok (X : list features) (r : features) :
  (Z.abs (credit_score r) < 2 ^ 1024)%Z ->
  exists c d l,
    row_probability X r = Ok (combine (Fin c) (Fin d) (Fin l)) /\
    0 <= c <= 1 /\ 0 <= d <= 1 /\ 0 <= l <= 1.
Proof.
  intros Hb. destruct (row_probability_cases X r) as [H | (_ & _ & Hbig)]; [exact H|].
  exfalso. apply Hbig.
  assert (E : (2 ^ 1025 = 2 * 2 ^ 1024)%Z) by reflexivity.
  assert (P : (300 < 2 ^ 1024)%Z) by reflexivity.
  rewrite E. set (B := (2 ^ 1024)%Z) in *. clearbody B. lia.
Qed.

Section RuleBasedScore.

Context {classifier : Type}.
Variable classifier_predict_proba : classifier -> list features -> list (list float64).

Lemma score_features_row (r : features) :
  score_features classifier_predict_proba RuleBasedModel r
  = (do prob <- row_probability [r] r ; score_of_prob prob).
Proof.
  unfold score_features, predict_proba, RuleBasedModel_predict_proba.
  cbn [predict_proba_rows]. unfold rule_row.
  destruct (row_probability [r] r); reflexivity.
Qed.

Lemma score_features_rule (r : features) :
  int64_row r = true ->
  score_features classifier_predict_proba RuleBasedModel r
  = (do prob <- rule_probability r ; score_of_prob prob).
Proof.
  intros H. rewrite score_features_row.
  rewrite (row_probability_float [r] r (int64_row_float r H)). reflexivity.
Qed.




End RuleBasedScore.







Section Prediction.

Context {classifier : Type}.
Variable fit : list features -> list Z -> classifier.
Variable classifier_predict_proba : classifier -> list features -> list (list float64).


Lemma predict_approval_loaded (fs : files classifier) (m : model classifier)
    (application_data : gmap string pyval) :
  MODEL_FILE fs = Some (Pickled m) ->
  predict_approval fit classifier_predict_proba fs application_data
  = (fs, do f <- extract_features application_data ; score_features classifier_predict_proba m f).
Proof.
  intros H. unfold predict_approval, train_model_if_needed, load_model.
  rewrite H. cbn [bind]. rewrite H. reflexivity.
Qed.

(** C1: on the record {loan_amount=10000, loan_term=3, annual_income=50000,
    employment_length=1, credit_score=700, monthly_debt=1000} the rule-based
    path computes dti_ratio = 0.24, loan_to_income = 0.2, credit_factor = 0.8,
    dti_factor = 0.76, lti_factor = 0.8 and the probability 0.894, each the
    float of that literal; the product with 100 is 89.4 and [predict_approval],
    with the rule-based model loaded, returns its integer part 89. *)
Theorem scenario_score (fs : files classifier) :
  MODEL_FILE fs = Some (Pickled RuleBasedModel) ->
  extract_features scenario_record = Ok scenario_features /\
  (do monthly_income <- monthly_income_of (of_int 50000) ;
   dti_ratio_of (of_int 1000) monthly_income) = Ok (lit 0.24) /\
  loan_to_income_of (of_int 10000) (of_int 50000) = Ok (lit 0.2) /\
  credit_factor_of (of_int 700) = Ok (lit 0.8) /\
  dti_factor_of (lit 0.24) = lit 0.76 /\
  lti_factor_of (lit 0.2) = lit 0.8 /\
  combine (lit 0.8) (lit 0.76) (lit 0.8) = lit 0.894 /\
  rule_probability scenario_features = Ok (lit 0.894) /\
  mul (lit 0.894) (of_int 100) = lit 89.4 /\
  score_of_prob (lit 0.894) = Ok 89%Z /\
  predict_approval fit classifier_predict_proba fs scenario_record = (fs, Ok 89%Z).
Proof.
  intros H. rewrite (predict_approval_loaded fs _ _ H).
  assert (E : extract_features scenario_record = Ok scenario_features)
    by (vm_compute; reflexivity).
  rewrite E. cbn [bind]. rewrite score_features_rule by reflexivity.
  assert (P : rule_probability scenario_features = Ok (lit 0.894))
    by (vm_compute; reflexivity).
  rewrite P. cbn [bind].
  assert (S : score_of_prob (lit 0.894) = Ok 89%Z) by (vm_compute; reflexivity).
  rewrite S.
  repeat split; try reflexivity; vm_compute; reflexivity.
Qed.

(** C3, as the code has it: with the learned classifier loaded, the score
    returned by [predict_approval] is [int(probability * 100)], the product
    truncated towards zero, where probability is the class-1 entry of the
    classifier's row for the six coerced features: the conversion of the
    rule-based path. *)
Theorem learned_score_truncates (fs : files classifier) (clf : classifier)
    (application_data : gmap string pyval) (f : features)
    (p0 p1 : float64) (row : list float64) (rows : list (list float64)) :
  MODEL_FILE fs = Some (Pickled (RandomForestClassifier clf)) ->
  extract_features application_data = Ok f ->
  classifier_predict_proba clf [f] = (p0 :: p1 :: row) :: rows ->
  predict_approval fit classifier_predict_proba fs application_data = (fs, score_of_prob p1) /\
  (forall q, mul p1 (of_int 100) = Fin q -> score_of_prob p1 = Ok (trunc q)).
Proof.
  intros H E P. rewrite (predict_approval_loaded fs _ _ H), E. cbn [bind].
  unfold score_features, predict_proba. cbn [bind]. rewrite P. cbn [item_0_1 bind].
  split; [reflexivity|].
  intros q Hq. unfold score_of_prob. rewrite Hq. reflexivity.
Qed.

End Prediction.

Lemma scenario_score_witness :
  MODEL_FILE rule_files = Some (Pickled RuleBasedModel) /\
  predict_approval (fun _ _ => tt) forest_0_896 rule_files scenario_record
  = (rule_files, Ok 89%Z).
Proof.
  split; [reflexivity|].
  apply (scenario_score (fun _ _ => tt) forest_0_896 rule_files). reflexivity.
Defined.

(** C3 fails as stated: with a class-1 probability of 0.896 the code
    returns 89, where [round(probability * 100)] is 90; and with 0.58, whose
    product with 100 is the float just below 58, it returns 57, not 58. *)
Lemma learned_score_is_not_rounded :
  snd (predict_approval (fun _ _ => tt) forest_0_896 learned_files scenario_record)
  = Ok 89%Z /\
  spec_learned_score (lit 0.896) = Ok 90%Z /\
  snd (predict_approval (fun _ _ => tt) forest_0_58 learned_files scenario_record)
  = Ok 57%Z /\
  spec_learned_score (lit 0.58) = Ok 58%Z.
Proof. repeat split; vm_compute; reflexivity. Qed.

Lemma learned_score_truncates_witness :
  MODEL_FILE learned_files = Some (Pickled (RandomForestClassifier tt)) /\
  extract_features scenario_record = Ok scenario_features /\
  forest_0_896 tt [scenario_features] = [[lit 0.104; lit 0.896]] /\
  predict_approval (fun _ _ => tt) forest_0_896 learned_files scenario_record
  = (learned_files, score_of_prob (lit 0.896)).
Proof.
  split; [reflexivity|]. split; [reflexivity|]. split; [reflexivity|].
  apply (learned_score_truncates (fun _ _ => tt) forest_0_896 learned_files tt
           scenario_record scenario_features (lit 0.104) (lit 0.896) [] []);
    reflexivity.
Defined.

(** ** The trainer *)

Section Trainer.

Context {classifier : Type}.
Variable fit : list features -> list Z -> classifier.

(** The decision of the trainer when no model file exists. *)
Lemma train_model_if_needed_decision (fs : files classifier) :
  MODEL_FILE fs = None ->
  let decided_apps :=
    match loan_applications_csv fs with
    | Some applications_df => List.filter decided applications_df
    | None => []
    end in
  train_model_if_needed fit fs
  = if (10 <=? Z.of_nat (length decided_apps))%Z
    then save_model fs (RandomForestClassifier
                          (fit (map app_features decided_apps) (map label decided_apps)))
    else save_model fs RuleBasedModel.
Proof.
  intros H. unfold train_model_if_needed. rewrite H.
  destruct (loan_applications_csv fs) as [df|]; cbn zeta.
  - destruct (10 <=? Z.of_nat (length (List.filter decided df)))%Z; reflexivity.
  - reflexivity.
Qed.

(** C6, evaluated: with exactly nine decided records and no model file the
    trainer chooses the rule-based model, but [pickle.dump] raises on it and
    leaves an incomplete model file, on which the next load raises; with
    exactly ten the classifier fitted on the six feature columns with the
    labels [status == 'approved'] is persisted and loaded. *)
Theorem trainer_at_nine_and_ten_records :
  length (List.filter decided nine_decided) = 9%nat /\
  train_model_if_needed fit (no_model_file nine_decided)
  = ({| MODEL_FILE := Some Incomplete; loan_applications_csv := Some nine_decided |},
     Raise AttributeError) /\
  load_model (fst (train_model_if_needed fit (no_model_file nine_decided))) = Raise EOFError /\
  length (List.filter decided ten_decided) = 10%nat /\
  train_model_if_needed fit (no_model_file ten_decided)
  = ({| MODEL_FILE :=
          Some (Pickled (RandomForestClassifier
                  (fit (map app_features (List.filter decided ten_decided))
                       [1; 0; 1; 1; 0; 1; 0; 1; 0; 1]%Z)));
        loan_applications_csv := Some ten_decided |},
     Ok tt) /\
  load_model (fst (train_model_if_needed fit (no_model_file ten_decided)))
  = Ok (RandomForestClassifier
          (fit (map app_features (List.filter decided ten_decided))
               (map label (List.filter decided ten_decided)))).
Proof. repeat split. Qed.

End Trainer.

(** ** Coercions *)

Lemma of_int_finite (z : Z) :
  (Z.abs z < 2 ^ 1024 - 2 ^ 970)%Z -> exists d, of_int z = Fin d.
Proof.
  intros Hz.
  assert (Hb : exists b, round (inject_Z (2 ^ 1024 - 2 ^ 970 - 1)) = Fin b)
    by (eexists; vm_compute; reflexivity).
  assert (Ha : exists a, round (inject_Z (- (2 ^ 1024 - 2 ^ 970 - 1))) = Fin a)
    by (eexists; vm_compute; reflexivity).
  destruct Ha as [a Ha], Hb as [b Hb].
  destruct (round_between _ _ _ _ (inject_Z z) Ha Hb) as (d & Hd & _).
  - rewrite <- !Zle_Qle. lia.
  - exists d. exact Hd.
Qed.

Lemma of_int_positive (z : Z) :
  (0 < z < 2 ^ 1024 - 2 ^ 970)%Z -> exists d, of_int z = Fin d /\ 0 < d.
Proof.
  intros Hz.
  assert (Hb : exists b, round (inject_Z (2 ^ 1024 - 2 ^ 970 - 1)) = Fin b)
    by (eexists; vm_compute; reflexivity).
  destruct Hb as [b Hb].
  destruct (round_between 1 _ 1 _ (inject_Z z) of_int_1 Hb) as (d & Hd & Hd1 & _).
  - change 1 with (inject_Z 1). rewrite <- !Zle_Qle. lia.
  - exists d. split; [exact Hd | lra].
Qed.

Lemma of_int_overflow (z : Z) :
  ~ (Z.abs z < 2 ^ 1024 - 2 ^ 970)%Z -> exists s, of_int z = Inf s.
Proof.
  intros Hz. unfold of_int.
  destruct (Z.le_gt_cases (2 ^ 1024 - 2 ^ 970) z) as [Hpos|Hneg].
  - assert (Hb : round (inject_Z (2 ^ 1024 - 2 ^ 970)) = Inf false)
      by (vm_compute; reflexivity).
    assert (Hq : inject_Z (2 ^ 1024 - 2 ^ 970) <= inject_Z z)
      by (rewrite <- Zle_Qle; exact Hpos).
    pose proof (round_mono _ _ Hq) as H.
    rewrite Hb in H. exists false.
    clear Hb. destruct (round (inject_Z z)) as [|s|q]; try discriminate H.
    destruct s; [discriminate H | reflexivity].
  - assert (Hle : (z <= - (2 ^ 1024 - 2 ^ 970))%Z) by lia.
    assert (Hb : round (inject_Z (- (2 ^ 1024 - 2 ^ 970))) = Inf true)
      by (vm_compute; reflexivity).
    assert (Hq : inject_Z z <= inject_Z (- (2 ^ 1024 - 2 ^ 970)))
      by (rewrite <- Zle_Qle; exact Hle).
    pose proof (round_mono _ _ Hq) as H.
    rewrite Hb in H. exists true.
    clear Hb. destruct (round (inject_Z z)) as [|s|q]; try discriminate H.
    destruct s; [reflexivity | discriminate H].
Qed.

Lemma py_float_ok (v : pyval) : float_ok v -> exists x, py_float v = Ok x.
Proof.
  destruct v as [z|y]; simpl; intros H.
  - destruct (of_int_finite z H) as [d Hd]. rewrite Hd. eauto.
  - eauto.
Qed.

Lemma py_float_inv (v : pyval) (x : float64) :
  py_float v = Ok x -> float_ok v /\ as_float v x.
Proof.
  destruct v as [z|y]; simpl; intros H.
  - destruct (Z.lt_ge_cases (Z.abs z) (2 ^ 1024 - 2 ^ 970)) as [Hlt|Hge].
    + split; [exact Hlt|]. destruct (of_int z); congruence.
    + destruct (of_int_overflow z) as [s Hs]; [lia|]. rewrite Hs in H. discriminate.
  - split; [exact I | congruence].
Qed.

Lemma py_int_ok (v : pyval) : int_ok v -> exists z, py_int v = Ok z.
Proof. destruct v as [z|[|s|q]]; simpl; intros H; try contradiction; eauto. Qed.

Lemma py_int_inv (v : pyval) (z : Z) : py_int v = Ok z -> int_ok v /\ as_int v z.
Proof. destruct v as [n|[|s|q]]; simpl; intros H; try discriminate; split; congruence || exact I. Qed.

(** [int()] drops the fraction: the result lies between zero and the number. *)
Lemma trunc_towards_zero (q : Q) :
  (0 <= q -> inject_Z (trunc q) <= q < inject_Z (trunc q + 1)) /\
  (q <= 0 -> inject_Z (trunc q - 1) < q <= inject_Z (trunc q)).
Proof.
  split; intros Hq.
  - rewrite trunc_nonneg by exact Hq. split; [apply Qfloor_le | apply Qlt_floor].
  - assert (E : trunc q = (- Qfloor (- q))%Z).
    { destruct q as [n d]. unfold Qle in Hq. simpl in Hq.
      unfold trunc, Qfloor, Qopp. simpl.
      rewrite <- Z.quot_div_nonneg by lia.
      rewrite Z.quot_opp_l by lia. lia. }
    rewrite E.
    pose proof (Qfloor_le (- q)) as H1. pose proof (Qlt_floor (- q)) as H2.
    rewrite inject_Z_plus in H2.
    unfold Z.sub. rewrite inject_Z_plus, !inject_Z_opp.
    change (inject_Z 1) with 1 in *. split; lra.
Qed.

(** C4, as the code has it: extraction reads the six named fields, a
    missing one as 0; [int()] cuts loan_term, employment_length and
    credit_score towards zero and [float()] converts loan_amount,
    annual_income and monthly_debt; it succeeds exactly on the records whose
    fields for [int()] are integers or finite floats and whose integers for
    [float()] are within the range of a float, and raises on every other
    record. *)
Theorem extraction_of_numeric_record (application_data : gmap string pyval) :
  (float_ok (get application_data "loan_amount") /\
   int_ok (get application_data "loan_term") /\
   float_ok (get application_data "annual_income") /\
   int_ok (get application_data "employment_length") /\
   int_ok (get application_data "credit_score") /\
   float_ok (get application_data "monthly_debt")
   <-> exists f, extract_features application_data = Ok f) /\
  (forall f, extract_features application_data = Ok f ->
     as_float (get application_data "loan_amount") (loan_amount f) /\
     as_int (get application_data "loan_term") (loan_term f) /\
     as_float (get application_data "annual_income") (annual_income f) /\
     as_int (get application_data "employment_length") (employment_length f) /\
     as_int (get application_data "credit_score") (credit_score f) /\
     as_float (get application_data "monthly_debt") (monthly_debt f)) /\
  (forall key, application_data !! key = None ->
     get application_data key = PyInt 0 /\
     py_int (PyInt 0) = Ok 0%Z /\ py_float (PyInt 0) = Ok (Fin 0)) /\
  (forall q, (0 <= q -> inject_Z (trunc q) <= q < inject_Z (trunc q + 1)) /\
             (q <= 0 -> inject_Z (trunc q - 1) < q <= inject_Z (trunc q))).
Proof.
  assert (Inv : forall f, extract_features application_data = Ok f ->
            (py_float (get application_data "loan_amount") = Ok (loan_amount f) /\
             py_int (get application_data "loan_term") = Ok (loan_term f) /\
             py_float (get application_data "annual_income") = Ok (annual_income f)) /\
            (py_int (get application_data "employment_length") = Ok (employment_length f) /\
             py_int (get application_data "credit_score") = Ok (credit_score f) /\
             py_float (get application_data "monthly_debt") = Ok (monthly_debt f))).
  { intros f. unfold extract_features.
    destruct (py_float (get application_data "loan_amount")); [|discriminate].
    destruct (py_int (get application_data "loan_term")); [|discriminate].
    destruct (py_float (get application_data "annual_income")); [|discriminate].
    destruct (py_int (get application_data "employment_length")); [|discriminate].
    destruct (py_int (get application_data "credit_score")); [|discriminate].
    destruct (py_float (get application_data "monthly_debt")); [|discriminate].
    cbn [bind]. intros H. injection H as <-. cbn [loan_amount loan_term annual_income
      employment_length credit_score monthly_debt]. auto 10. }
  split; [|split; [|split]].
  - split.
    + intros (H1 & H2 & H3 & H4 & H5 & H6).
      destruct (py_float_ok _ H1) as (la & E1). destruct (py_int_ok _ H2) as (lt & E2).
      destruct (py_float_ok _ H3) as (ai & E3). destruct (py_int_ok _ H4) as (el & E4).
      destruct (py_int_ok _ H5) as (cs & E5). destruct (py_float_ok _ H6) as (md & E6).
      eexists. unfold extract_features.
      rewrite E1, E2, E3, E4, E5, E6. reflexivity.
    + intros (f & Hf). destruct (Inv f Hf) as ((E1 & E2 & E3) & E4 & E5 & E6).
      exact (conj (proj1 (py_float_inv _ _ E1)) (conj (proj1 (py_int_inv _ _ E2))
            (conj (proj1 (py_float_inv _ _ E3)) (conj (proj1 (py_int_inv _ _ E4))
            (conj (proj1 (py_int_inv _ _ E5)) (proj1 (py_float_inv _ _ E6))))))).
  - intros f Hf. destruct (Inv f Hf) as ((E1 & E2 & E3) & E4 & E5 & E6).
    exact (conj (proj2 (py_float_inv _ _ E1)) (conj (proj2 (py_int_inv _ _ E2))
          (conj (proj2 (py_float_inv _ _ E3)) (conj (proj2 (py_int_inv _ _ E4))
          (conj (proj2 (py_int_inv _ _ E5)) (proj2 (py_float_inv _ _ E6))))))).
  - intros key Hk. unfold get. rewrite Hk. repeat split.
  - exact trunc_towards_zero.
Qed.

(** C4 fails as stated: a record whose loan_term is NaN, an empty cell of
    the CSV file, makes the extraction raise; and a loan_term of 2.7 is cut
    to 2, where rounding gives 3. *)
Lemma extraction_raises_and_truncates :
  extract_features {[ "loan_term" := PyFloat NaN ]} = Raise ValueError /\
  (do f <- extract_features {[ "loan_term" := PyFloat (lit 2.7) ]} ; Ok (loan_term f))
  = Ok 2%Z /\
  py_round (lit 2.7) = Ok 3%Z.
Proof. repeat split; vm_compute; reflexivity. Qed.

Lemma extraction_of_numeric_record_witness :
  float_ok (PyInt 10000) /\ int_ok (PyFloat (lit 2.7)) /\
  exists f,
    extract_features {[ "loan_term" := PyFloat (lit 2.7); "loan_amount" := PyInt 10000 ]}
    = Ok f /\ loan_term f = 2%Z /\ loan_amount f = of_int 10000 /\ credit_score f = 0%Z.
Proof.
  split; [reflexivity|]. split; [exact I|].
  destruct (extraction_of_numeric_record
              {[ "loan_term" := PyFloat (lit 2.7); "loan_amount" := PyInt 10000 ]})
    as ([Hok _] & Has & _).
  destruct Hok as (f & E).
  { split; [vm_compute; reflexivity|]. split; [exact I|].
    split; [vm_compute; reflexivity|]. split; [exact I|].
    split; [exact I|]. vm_compute; reflexivity. }
  exists f. split; [exact E|].
  destruct (Has f E) as (A1 & A2 & _ & _ & A5 & _).
  vm_compute in A1, A2, A5. repeat split; assumption.
Defined.

(** ** The explanation of a record without income *)

Lemma mul_zero_l (q c : Q) : q == 0 -> mul (Fin q) (Fin c) = Fin 0.
Proof.
  intros Hq. simpl. rewrite (round_comp (q * c) 0); [reflexivity|].
  rewrite Hq. ring.
Qed.

(** C10: with an annual income of zero the loan amount is compared with
    [0 * 0.5] and [0 * 2], both zero, no ratio being formed: the fourth
    explanation is "conservative" exactly when [loan_amount <= 0], so for a
    loan amount of 0, and "high" for every positive loan amount. *)
Theorem zero_income_amount_explanation :
  (forall loan_amount annual_income : float64,
     is_zero annual_income = true ->
     (amount_explanation loan_amount annual_income
      = "Your requested loan amount is conservative relative to your annual income."%string
      <-> leb loan_amount (of_int 0) = true) /\
     (gtb loan_amount (of_int 0) = true ->
      amount_explanation loan_amount annual_income
      = "Your requested loan amount is high relative to your annual income."%string)) /\
  get_model_explanation {[ "annual_income" := PyInt 0; "loan_amount" := PyInt 0 ]}
  = Ok [ "Your credit score is too low for most standard loans.";
         "Your high debt-to-income ratio may limit approval chances.";
         "The proposed loan payment is high relative to your income.";
         "Your requested loan amount is conservative relative to your annual income."
       ]%string /\
  get_model_explanation {[ "annual_income" := PyInt 0; "loan_amount" := PyInt 1 ]}
  = Ok [ "Your credit score is too low for most standard loans.";
         "Your high debt-to-income ratio may limit approval chances.";
         "The proposed loan payment is high relative to your income.";
         "Your requested loan amount is high relative to your annual income."
       ]%string.
Proof.
  split; [|split; vm_compute; reflexivity].
  intros loan_amount annual_income Hz.
  destruct annual_income as [|s|q]; try discriminate.
  simpl in Hz. apply Qeq_bool_eq in Hz.
  unfold amount_explanation.
  rewrite lit_0_5. change (of_int 2) with (Fin 2).
  rewrite !(mul_zero_l q _ Hz), of_int_0.
  split.
  - destruct (leb loan_amount (Fin 0)); split; intros H; try reflexivity; discriminate.
  - intros H. rewrite (ltb_leb_false _ _ H). reflexivity.
Qed.

Lemma zero_income_amount_explanation_witness :
  is_zero (of_int 0) = true /\ gtb (of_int 5000) (of_int 0) = true /\
  amount_explanation (of_int 5000) (of_int 0)
  = "Your requested loan amount is high relative to your annual income."%string.
Proof.
  split; [reflexivity|]. split; [reflexivity|].
  apply (proj1 zero_income_amount_explanation (of_int 5000) (of_int 0)); reflexivity.
Defined.

(** ** The explanation never lacks a message *)

Lemma credit_explanation_nonempty (credit_score : Z) :
  credit_explanation credit_score <> ""%string.
Proof.
  unfold credit_explanation.
  repeat match goal with |- context [if ?b then _ else _] => destruct b end; discriminate.
Qed.

Lemma dti_explanation_nonempty (dti_ratio : float64) :
  dti_explanation dti_ratio <> ""%string.
Proof.
  unfold dti_explanation.
  repeat match goal with |- context [if ?b then _ else _] => destruct b end; discriminate.
Qed.

Lemma payment_explanation_nonempty (payment_to_income : float64) :
  payment_explanation payment_to_income <> ""%string.
Proof.
  unfold payment_explanation.
  repeat match goal with |- context [if ?b then _ else _] => destruct b end; discriminate.
Qed.

Lemma amount_explanation_nonempty (loan_amount annual_income : float64) :
  amount_explanation loan_amount annual_income <> ""%string.
Proof.
  unfold amount_explanation.
  repeat match goal with |- context [if ?b then _ else _] => destruct b end; discriminate.
Qed.

Lemma explained_dti_ratio_ok (monthly_debt monthly_income : float64) :
  exists dti_ratio, explained_dti_ratio monthly_debt monthly_income = Ok dti_ratio /\
    (gtb monthly_income (of_int 0) = false -> dti_ratio = Inf false).
Proof.
  unfold explained_dti_ratio.
  destruct (gtb monthly_income (of_int 0)) eqn:E.
  - rewrite (truediv_pos _ _ E). eexists. split; [reflexivity | discriminate].
  - eexists. split; reflexivity.
Qed.

Lemma explained_payment_to_income_ok (monthly_payment monthly_income : float64) :
  exists r, explained_payment_to_income monthly_payment monthly_income = Ok r /\
    (gtb monthly_income (of_int 0) = false -> r = Inf false).
Proof.
  unfold explained_payment_to_income.
  destruct (gtb monthly_income (of_int 0)) eqn:E.
  - rewrite (truediv_pos _ _ E). eexists. split; [reflexivity | discriminate].
  - eexists. split; reflexivity.
Qed.

Lemma explained_monthly_payment_ok (loan_amount : float64) (loan_term : Z) :
  (loan_term < 2 ^ 1024 - 2 ^ 970)%Z ->
  exists monthly_payment,
    explained_monthly_payment loan_amount loan_term = Ok monthly_payment /\
    ((loan_term <= 0)%Z -> monthly_payment = Inf false).
Proof.
  intros Hb. unfold explained_monthly_payment.
  destruct (0 <? loan_term)%Z eqn:E.
  - apply Z.ltb_lt in E.
    destruct (of_int_positive loan_term (conj E Hb)) as (d & Hd & Hpos).
    simpl py_float. rewrite Hd. cbn [bind].
    rewrite truediv_Fin by lra. eexists. split; [reflexivity | lia].
  - eexists. split; reflexivity.
Qed.

(** C5, as the code has it: whenever the five coercions succeed, and the
    loan term, an integer by then, is within the range of a float, the
    explanation is a list of exactly four non-empty strings, the messages of
    the credit score, the debt-to-income ratio, the payment-to-income ratio
    and the loan amount in this order; the two ratios are infinite, not an
    error, when the monthly income is not positive, and so is the monthly
    payment when the loan term is not positive. *)
Theorem explanation_of_coercible_record (application_data : gmap string pyval)
    (loan_amount : float64) (loan_term : Z) (annual_income : float64)
    (credit_score : Z) (monthly_debt : float64) :
  py_float (get application_data "loan_amount") = Ok loan_amount ->
  py_int (get application_data "loan_term") = Ok loan_term ->
  py_float (get application_data "annual_income") = Ok annual_income ->
  py_int (get application_data "credit_score") = Ok credit_score ->
  py_float (get application_data "monthly_debt") = Ok monthly_debt ->
  (loan_term < 2 ^ 1024 - 2 ^ 970)%Z ->
  exists monthly_income monthly_payment dti_ratio payment_to_income : float64,
    monthly_income_of annual_income = Ok monthly_income /\
    explained_dti_ratio monthly_debt monthly_income = Ok dti_ratio /\
    explained_monthly_payment loan_amount loan_term = Ok monthly_payment /\
    explained_payment_to_income monthly_payment monthly_income = Ok payment_to_income /\
    get_model_explanation application_data
    = Ok [ credit_explanation credit_score;
           dti_explanation dti_ratio;
           payment_explanation payment_to_income;
           amount_explanation loan_amount annual_income ] /\
    credit_explanation credit_score <> ""%string /\
    dti_explanation dti_ratio <> ""%string /\
    payment_explanation payment_to_income <> ""%string /\
    amount_explanation loan_amount annual_income <> ""%string /\
    (gtb monthly_income (of_int 0) = false ->
     dti_ratio = Inf false /\ payment_to_income = Inf false) /\
    ((loan_term <= 0)%Z -> monthly_payment = Inf false).
Proof.
  intros E1 E2 E3 E4 E5 Hb.
  unfold get_model_explanation. rewrite E1, E2, E3, E4, E5. cbn [bind].
  rewrite monthly_income_of_eq. cbn [bind].
  destruct (explained_dti_ratio_ok monthly_debt (quotient annual_income (Fin 12)))
    as (dti & Hdti & Hdti').
  destruct (explained_monthly_payment_ok loan_amount loan_term Hb) as (mp & Hmp & Hmp').
  destruct (explained_payment_to_income_ok mp (quotient annual_income (Fin 12)))
    as (pti & Hpti & Hpti').
  rewrite Hdti. cbn [bind]. rewrite Hmp. cbn [bind]. rewrite Hpti. cbn [bind].
  exists (quotient annual_income (Fin 12)), mp, dti, pti.
  split; [reflexivity|]. split; [exact Hdti|]. split; [reflexivity|].
  split; [exact Hpti|]. split; [reflexivity|].
  split; [apply credit_explanation_nonempty|].
  split; [apply dti_explanation_nonempty|].
  split; [apply payment_explanation_nonempty|].
  split; [apply amount_explanation_nonempty|].
  split; [|exact Hmp'].
  intros H. split; [apply Hdti', H | apply Hpti', H].
Qed.

(** C5 fails as stated: a record whose credit_score is NaN, an empty cell
    of the CSV file, makes [get_model_explanation] raise. *)
Lemma explanation_raises_on_nan :
  get_model_explanation {[ "credit_score" := PyFloat NaN ]} = Raise ValueError.
Proof. vm_compute. reflexivity. Qed.

(** The empty record: the income and the loan term default to 0 and both
    ratios are infinite. *)
Lemma explanation_of_coercible_record_witness :
  py_int (get ∅ "loan_term") = Ok 0%Z /\
  py_float (get ∅ "annual_income") = Ok (Fin 0) /\
  exists dti_ratio payment_to_income : float64,
    get_model_explanation ∅
    = Ok [ credit_explanation 0;
           dti_explanation dti_ratio;
           payment_explanation payment_to_income;
           amount_explanation (Fin 0) (Fin 0) ] /\
    dti_ratio = Inf false /\ payment_to_income = Inf false.
Proof.
  split; [reflexivity|]. split; [reflexivity|].
  destruct (explanation_of_coercible_record ∅ (Fin 0) 0 (Fin 0) 0 (Fin 0))
    as (mi & mp & dti & pti & Emi & _ & _ & _ & E & _ & _ & _ & _ & Hinf & _);
    try reflexivity.
  exists dti, pti. split; [exact E|].
  apply Hinf. injection Emi as <-. reflexivity.
Defined.

(** ** The explanation ladders *)



(** * Further properties of the scoring engine *)

(** ** The rule-based probability *)

Lemma ltb_leb_trans (x y z : float64) :
  ltb x y = true -> leb y z = true -> ltb x z = true.
Proof.
  destruct x as [|a|a], y as [|b|b], z as [|c|c]; by_cases_bool.
  rewrite !Qltb_lt, Qle_bool_iff. intros; lra.
Qed.

(** The partial sums of [combine] are finite. *)
Lemma combine_sums (c d l : Q) :
  0 <= c <= 1 -> 0 <= d <= 1 -> 0 <= l <= 1 ->
  exists s1 s2 s3 a b,
    add (lit 0.5) (mul (lit 0.2) (Fin c)) = Fin s1 /\
    mul (lit 0.15) (Fin d) = Fin a /\
    mul (lit 0.15) (Fin l) = Fin b /\
    add (Fin s1) (Fin a) = Fin s2 /\
    add (Fin s2) (Fin b) = Fin s3 /\
    1 # 2 <= s1 /\ 1 # 2 <= s2 /\ 1 # 2 <= s3 /\ 0 <= a /\ 0 <= b.
Proof.
  intros Hc Hd Hl.
  destruct (lit_weight 0.2 (or_introl eq_refl)) as (k2 & Hk2 & Hk2pos & Hk2r).
  destruct (lit_weight 0.15 (or_intror eq_refl)) as (k15 & Hk15 & Hk15pos & Hk15r).
  destruct (weighted_factor k2 c Hk2pos Hk2r Hc) as (t & Ht & Ht0 & Ht1).
  destruct (weighted_factor k15 d Hk15pos Hk15r Hd) as (a & Ha & Ha0 & Ha1).
  destruct (weighted_factor k15 l Hk15pos Hk15r Hl) as (b & Hb & Hb0 & Hb1).
  assert (K2 : k2 <= 1).
  { apply leb_Fin. rewrite <- Hk2. vm_compute. reflexivity. }
  assert (K15 : k15 <= 1).
  { apply leb_Fin. rewrite <- Hk15. vm_compute. reflexivity. }
  assert (R4 : round 4 = Fin 4) by (vm_compute; reflexivity).
  assert (Rh : round (1 # 2) = Fin (1 # 2)) by (vm_compute; reflexivity).
  rewrite Hk2, Hk15, lit_0_5, Ht, Ha, Hb.
  destruct (round_between (1 # 2) 4 _ _ ((1 # 2) + t) Rh R4) as (s1 & Hs1 & Hs1a & Hs1b);
    [lra|].
  destruct (round_between (1 # 2) 4 _ _ (s1 + a) Rh R4) as (s2 & Hs2 & Hs2a & Hs2b).
  { split; [lra|].
    assert (s1 <= 2).
    { apply leb_Fin. rewrite <- Hs1.
      apply leb_trans with (round 2); [apply round_mono; lra | vm_compute; reflexivity]. }
    lra. }
  destruct (round_between (1 # 2) 4 _ _ (s2 + b) Rh R4) as (s3 & Hs3 & Hs3a & Hs3b).
  { split; [lra|].
    assert (s1 <= 2).
    { apply leb_Fin. rewrite <- Hs1.
      apply leb_trans with (round 2); [apply round_mono; lra | vm_compute; reflexivity]. }
    assert (s2 <= 3).
    { apply leb_Fin. rewrite <- Hs2.
      apply leb_trans with (round 3); [apply round_mono; lra | vm_compute; reflexivity]. }
    lra. }
  exists s1, s2, s3, a, b. simpl add at 1. simpl add.
  repeat split; try assumption.
Qed.

(** The probability is at least the base score 0.5. *)
Lemma combine_lower (c d l : Q) :
  0 <= c <= 1 -> 0 <= d <= 1 -> 0 <= l <= 1 ->
  leb (Fin (1 # 2)) (combine (Fin c) (Fin d) (Fin l)) = true.
Proof.
  intros Hc Hd Hl.
  destruct (combine_sums c d l Hc Hd Hl)
    as (s1 & s2 & s3 & a & b & E1 & Ea & Eb & E2 & E3 & _ & _ & H3 & _).
  destruct lit_bounds as (lo & hi & Hlo & Hhi & _ & _ & Hle).
  assert (Hh : py_max (lit 0.05) (py_min (lit 0.95) (Fin (1 # 2))) = Fin (1 # 2))
    by (vm_compute; reflexivity).
  unfold combine. cbv zeta. rewrite E1, Ea, Eb, E2, E3.
  rewrite <- Hh at 1. rewrite Hlo, Hhi.
  apply clamp_mono; [exact Hle|]. apply leb_Fin, H3.
Qed.

(** The probability grows with the debt factor and with the loan factor. *)
Lemma combine_mono_dti (c d d' l : Q) :
  0 <= c <= 1 -> 0 <= d -> d <= d' -> d' <= 1 -> 0 <= l <= 1 ->
  leb (combine (Fin c) (Fin d) (Fin l)) (combine (Fin c) (Fin d') (Fin l)) = true.
Proof.
  intros Hc Hd Hdd Hd' Hl.
  destruct (combine_sums c d l Hc (conj Hd (Qle_trans _ _ _ Hdd Hd')) Hl)
    as (s1 & s2 & s3 & a & b & E1 & Ea & Eb & E2 & E3 & _).
  destruct lit_bounds as (lo & hi & Hlo & Hhi & _ & _ & Hle).
  destruct (lit_weight 0.15 (or_intror eq_refl)) as (k15 & Hk15 & Hk15pos & Hk15r).
  unfold combine. cbv zeta. rewrite E1, Eb, Hlo, Hhi, Hk15.
  apply clamp_mono; [exact Hle|].
  apply add_mono_l, add_mono_r, mul_mono_r; assumption.
Qed.

Lemma combine_mono_lti (c d l l' : Q) :
  0 <= c <= 1 -> 0 <= d <= 1 -> 0 <= l -> l <= l' -> l' <= 1 ->
  leb (combine (Fin c) (Fin d) (Fin l)) (combine (Fin c) (Fin d) (Fin l')) = true.
Proof.
  intros Hc Hd Hl Hll Hl'.
  destruct (combine_sums c d l Hc Hd (conj Hl (Qle_trans _ _ _ Hll Hl')))
    as (s1 & s2 & s3 & a & b & E1 & Ea & Eb & E2 & E3 & _).
  destruct lit_bounds as (lo & hi & Hlo & Hhi & _ & _ & Hle).
  destruct (lit_weight 0.15 (or_intror eq_refl)) as (k15 & Hk15 & Hk15pos & Hk15r).
  unfold combine. cbv zeta. rewrite E1, Ea, E2, Hlo, Hhi. rewrite Hk15.
  apply clamp_mono; [exact Hle|].
  apply add_mono_r, mul_mono_r; assumption.
Qed.

(** A larger ratio gives a smaller factor [max(0, min(1, 1 - ratio))]. *)
Lemma sub_antitone (x y : float64) (k : Q) :
  leb x y = true -> leb (sub (Fin k) y) (sub (Fin k) x) = true.
Proof. intros H. unfold sub. apply add_mono_r, leb_neg, H. Qed.

Lemma dti_factor_antitone (x y : float64) :
  leb x y = true -> leb (dti_factor_of y) (dti_factor_of x) = true.
Proof.
  intros H. unfold dti_factor_of. rewrite of_int_0, of_int_1.
  apply clamp_mono; [discriminate|]. apply sub_antitone, H.
Qed.

(** The guarded ratio [num / den if den > 0 else 1], seen through the
    factor, never grows when the numerator shrinks. *)
Lemma guarded_factor_antitone (n1 n2 den : float64) :
  leb n1 n2 = true ->
  leb (dti_factor_of (guarded_ratio n2 den (of_int 1)))
      (dti_factor_of (guarded_ratio n1 den (of_int 1))) = true.
Proof.
  intros H. unfold guarded_ratio.
  destruct (gtb den (of_int 0)) eqn:E.
  - destruct den as [|s|d].
    + discriminate E.
    + destruct s; [discriminate E|].
      destruct n1 as [|s1|q1], n2 as [|s2|q2]; try discriminate H;
        try destruct s1; try destruct s2; try discriminate H;
        vm_compute; reflexivity.
    + apply dti_factor_antitone, quotient_mono_l; [|exact H].
      rewrite of_int_0 in E. apply Qltb_lt in E. exact E.
  - destruct (unit_factor (sub (of_int 1) (of_int 1))) as (q & Hq & _).
    unfold dti_factor_of. rewrite Hq. apply leb_Fin, Qle_refl.
Qed.

(** The credit factor saturates: 1 from a score of 800 on, 0 up to 300. *)
Lemma clamped_credit_high (c : Z) :
  (800 <= c)%Z -> clamped_credit (of_int c) = Fin 1.
Proof.
  intros H. unfold clamped_credit.
  assert (Hx : leb (Fin 1) (quotient (sub (of_int c) (Fin 300)) (Fin 500)) = true).
  { change (Fin 1) with (quotient (sub (of_int 800) (Fin 300)) (Fin 500)) at 1.
    apply quotient_mono_l; [reflexivity|].
    apply sub_mono_l. apply round_mono. rewrite <- Zle_Qle. exact H. }
  unfold py_min. rewrite (leb_ltb_false _ _ Hx). reflexivity.
Qed.

Lemma clamped_credit_low (c : Z) :
  (c <= 300)%Z -> clamped_credit (of_int c) = Fin 0.
Proof.
  intros H. unfold clamped_credit.
  assert (Hx : leb (quotient (sub (of_int c) (Fin 300)) (Fin 500)) (Fin 0) = true).
  { change (Fin 0) with (quotient (sub (of_int 300) (Fin 300)) (Fin 500)) at 1.
    apply quotient_mono_l; [reflexivity|].
    apply sub_mono_l. apply round_mono. rewrite <- Zle_Qle. exact H. }
  set (x := quotient _ _) in *. clearbody x.
  assert (H1 : ltb x (Fin 1) = true).
  { destruct x as [|s|q]; try destruct s; try discriminate Hx; [reflexivity|].
    apply leb_Fin in Hx. simpl. apply Qltb_lt. lra. }
  unfold py_min, py_max, gtb. rewrite H1. rewrite (leb_ltb_false _ _ Hx). reflexivity.
Qed.

(** A monthly income is positive only if the annual income is. *)
Lemma monthly_income_not_positive (annual_income : float64) :
  gtb annual_income (of_int 0) = false ->
  gtb (quotient annual_income (Fin 12)) (of_int 0) = false.
Proof.
  rewrite of_int_0. unfold gtb.
  destruct annual_income as [|s|q]; simpl.
  - reflexivity.
  - destruct s; [reflexivity | discriminate].
  - intros H. apply Qltb_ge in H.
    change (ltb (Fin 0) (round (q / 12)) = false).
    apply leb_ltb_false.
    change (Fin 0) with (round 0). apply round_mono.
    apply Qle_shift_div_r; [reflexivity|]. rewrite Qmult_0_l. exact H.
Qed.

(** The factors of a row are floats between 0 and 1. *)
Lemma rule_probability_factors (r : features) :
  exists c d l,
    clamped_credit (of_int (credit_score r)) = Fin c /\
    dti_factor_of (guarded_ratio (monthly_debt r)
                     (quotient (annual_income r) (Fin 12)) (of_int 1)) = Fin d /\
    lti_factor_of (guarded_ratio (loan_amount r) (annual_income r) (of_int 1)) = Fin l /\
    rule_probability r = Ok (combine (Fin c) (Fin d) (Fin l)) /\
    0 <= c <= 1 /\ 0 <= d <= 1 /\ 0 <= l <= 1.
Proof.
  destruct (clamped_credit_range (of_int (credit_score r))) as (c & Hc & Hcq).
  destruct (unit_factor (sub (of_int 1)
              (guarded_ratio (monthly_debt r) (quotient (annual_income r) (Fin 12)) (of_int 1))))
    as (d & Hd & Hdq).
  destruct (unit_factor (sub (of_int 1)
              (guarded_ratio (loan_amount r) (annual_income r) (of_int 1))))
    as (l & Hl & Hlq).
  exists c, d, l. rewrite rule_probability_eq. unfold dti_factor_of, lti_factor_of.
  rewrite Hc, Hd, Hl. auto 10.
Qed.

(** [int(prob * 100)] of a probability of at least one half. *)
Lemma score_of_prob_upper_half (p : Q) :
  1 # 2 <= p -> leb (Fin p) (lit 0.95) = true ->
  exists n, score_of_prob (Fin p) = Ok n /\ (50 <= n <= 95)%Z.
Proof.
  intros Hp H2.
  assert (H1 : leb (lit 0.05) (Fin p) = true).
  { apply leb_trans with (Fin (1 # 2)); [vm_compute; reflexivity | apply leb_Fin, Hp]. }
  destruct (score_of_prob_Fin p H1 H2) as (r & Hr & [_ Hr2] & Hs).
  exists (Qfloor r). split; [exact Hs|]. split.
  - rewrite <- (Qfloor_Z 50). apply Qfloor_resp_le.
    apply leb_Fin. rewrite <- Hr, of_int_100.
    change (Fin (inject_Z 50)) with (mul (Fin (1 # 2)) (Fin 100)).
    apply mul_mono_l; [discriminate | exact Hp].
  - rewrite <- (Qfloor_Z 95). apply Qfloor_resp_le. exact Hr2.
Qed.

Section RuleBasedScoreShape.

Context {classifier : Type}.
Variable classifier_predict_proba : classifier -> list features -> list (list float64).

(** X1: the lower clamp of the rule-based scorer is never reached: for every
    feature row whose credit score is below 2^1024 in absolute value, of
    whatever dtype, the probability is a float between 0.5 and 0.95 and the
    score an integer between 50 and 95. *)
Theorem rule_score_at_least_50 (r : features) :
  (Z.abs (credit_score r) < 2 ^ 1024)%Z ->
  exists p n,
    row_probability [r] r = Ok (Fin p) /\
    leb (lit 0.5) (Fin p) = true /\ leb (Fin p) (lit 0.95) = true /\
    score_features classifier_predict_proba RuleBasedModel r = Ok n /\
    (50 <= n <= 95)%Z.
Proof.
  intros Hb.
  destruct (row_probability_ok [r] r Hb) as (c & d & l & E & Hc & Hd & Hl).
  destruct (combine_range (Fin c) (Fin d) (Fin l)) as (p & Hp & _ & H2).
  pose proof (combine_lower c d l Hc Hd Hl) as H1. rewrite Hp in H1.
  destruct (score_of_prob_upper_half p (proj1 (leb_Fin _ _) H1) H2) as (n & Hn & Hb').
  exists p, n. rewrite score_features_row, E, Hp. cbn [bind].
  rewrite lit_0_5. auto.
Qed.

(** X2: the credit factor saturates.  Two rows whose integers are in the
    range of int64 and that differ only in the credit score get the same
    probability and the same score when both credit scores are at least 800,
    and when both are at most 300. *)
Theorem rule_score_saturates_in_credit_score (r1 r2 : features) :
  int64_row r1 = true -> int64_row r2 = true ->
  loan_amount r1 = loan_amount r2 ->
  annual_income r1 = annual_income r2 ->
  monthly_debt r1 = monthly_debt r2 ->
  (800 <= credit_score r1 /\ 800 <= credit_score r2)%Z \/
  (credit_score r1 <= 300 /\ credit_score r2 <= 300)%Z ->
  rule_probability r1 = rule_probability r2 /\
  score_features classifier_predict_proba RuleBasedModel r1
  = score_features classifier_predict_proba RuleBasedModel r2.
Proof.
  intros I1 I2 Hla Hai Hmd Hcs.
  assert (E : rule_probability r1 = rule_probability r2).
  { rewrite !rule_probability_eq, Hla, Hai, Hmd.
    destruct Hcs as [[H1 H2] | [H1 H2]].
    - rewrite (clamped_credit_high _ H1), (clamped_credit_high _ H2). reflexivity.
    - rewrite (clamped_credit_low _ H1), (clamped_credit_low _ H2). reflexivity. }
  split; [exact E|].
  rewrite (score_features_rule _ r1 I1), (score_features_rule _ r2 I2), E. reflexivity.
Qed.

(** X3: two rows whose integers are in the range of int64 and that agree
    on the amount, the income and the credit score, the second one having
    the larger monthly debt, get scores in the opposite order: more debt
    never raises the score. *)
Theorem rule_score_antitone_in_monthly_debt (r1 r2 : features) :
  int64_row r1 = true -> int64_row r2 = true ->
  loan_amount r1 = loan_amount r2 ->
  annual_income r1 = annual_income r2 ->
  credit_score r1 = credit_score r2 ->
  leb (monthly_debt r1) (monthly_debt r2) = true ->
  exists n1 n2,
    score_features classifier_predict_proba RuleBasedModel r1 = Ok n1 /\
    score_features classifier_predict_proba RuleBasedModel r2 = Ok n2 /\
    (n2 <= n1)%Z.
Proof.
  intros I1 I2 Hla Hai Hcs Hmd.
  destruct (rule_probability_factors r1) as (c & d1 & l & Ec & Ed1 & El & E1 & Hc & Hd1 & Hl).
  destruct (rule_probability_factors r2) as (c' & d2 & l' & Ec' & Ed2 & El' & E2 & _ & Hd2 & _).
  rewrite <- Hla, <- Hai, El in El'. rewrite <- Hcs, Ec in Ec'.
  injection El' as <-. injection Ec' as <-.
  pose proof (guarded_factor_antitone _ _ (quotient (annual_income r1) (Fin 12)) Hmd) as Hd.
  rewrite Hai in Hd at 1. rewrite Ed1, Ed2 in Hd. apply leb_Fin in Hd.
  pose proof (combine_mono_dti c d2 d1 l Hc (proj1 Hd2) Hd (proj2 Hd1) Hl) as Hm.
  destruct (combine_range (Fin c) (Fin d1) (Fin l)) as (p1 & Hp1 & H11 & H12).
  destruct (combine_range (Fin c) (Fin d2) (Fin l)) as (p2 & Hp2 & H21 & H22).
  rewrite Hp1, Hp2 in Hm. apply leb_Fin in Hm.
  rewrite (score_features_rule _ r1 I1), (score_features_rule _ r2 I2).
  rewrite E1, E2, Hp1, Hp2. cbn [bind].
  destruct (score_of_prob_range p1 H11 H12) as (n1 & Hn1 & _).
  destruct (score_of_prob_range p2 H21 H22) as (n2 & Hn2 & _).
  exists n1, n2. split; [exact Hn1|]. split; [exact Hn2|].
  exact (score_of_prob_mono p2 p1 n2 n1 H21 H12 Hm Hn2 Hn1).
Qed.

(** X4: two rows whose integers are in the range of int64 and that agree
    on the income, the credit score and the monthly debt, the second one
    having the larger requested amount, get scores in the opposite order:
    asking for more never raises the score. *)
Theorem rule_score_antitone_in_loan_amount (r1 r2 : features) :
  int64_row r1 = true -> int64_row r2 = true ->
  annual_income r1 = annual_income r2 ->
  credit_score r1 = credit_score r2 ->
  monthly_debt r1 = monthly_debt r2 ->
  leb (loan_amount r1) (loan_amount r2) = true ->
  exists n1 n2,
    score_features classifier_predict_proba RuleBasedModel r1 = Ok n1 /\
    score_features classifier_predict_proba RuleBasedModel r2 = Ok n2 /\
    (n2 <= n1)%Z.
Proof.
  intros I1 I2 Hai Hcs Hmd Hla.
  destruct (rule_probability_factors r1) as (c & d & l1 & Ec & Ed & El1 & E1 & Hc & Hd & Hl1).
  destruct (rule_probability_factors r2) as (c' & d' & l2 & Ec' & Ed' & El2 & E2 & _ & _ & Hl2).
  rewrite <- Hmd, <- Hai, Ed in Ed'. rewrite <- Hcs, Ec in Ec'.
  injection Ed' as <-. injection Ec' as <-.
  pose proof (guarded_factor_antitone _ _ (annual_income r1) Hla) as Hl.
  change dti_factor_of with lti_factor_of in Hl.
  rewrite Hai in Hl at 1. rewrite El1, El2 in Hl. apply leb_Fin in Hl.
  pose proof (combine_mono_lti c d l2 l1 Hc Hd (proj1 Hl2) Hl (proj2 Hl1)) as Hm.
  destruct (combine_range (Fin c) (Fin d) (Fin l1)) as (p1 & Hp1 & H11 & H12).
  destruct (combine_range (Fin c) (Fin d) (Fin l2)) as (p2 & Hp2 & H21 & H22).
  rewrite Hp1, Hp2 in Hm. apply leb_Fin in Hm.
  rewrite (score_features_rule _ r1 I1), (score_features_rule _ r2 I2).
  rewrite E1, E2, Hp1, Hp2. cbn [bind].
  destruct (score_of_prob_range p1 H11 H12) as (n1 & Hn1 & _).
  destruct (score_of_prob_range p2 H21 H22) as (n2 & Hn2 & _).
  exists n1, n2. split; [exact Hn1|]. split; [exact Hn2|].
  exact (score_of_prob_mono p2 p1 n2 n1 H21 H12 Hm Hn2 Hn1).
Qed.

End RuleBasedScoreShape.

Lemma guarded_ratio_otherwise (num den otherwise : float64) :
  gtb den (of_int 0) = false -> guarded_ratio num den otherwise = otherwise.
Proof. intros H. unfold guarded_ratio. rewrite H. reflexivity. Qed.

Section RuleBasedScoreEdges.

Context {classifier : Type}.
Variable classifier_predict_proba : classifier -> list features -> list (list float64).

(** X5: without a positive annual income (zero, negative or NaN) both ratios
    are replaced by 1 and both of their factors are 0: for rows whose
    integers are in the range of int64 the score depends on the credit score
    alone, whatever the amount and the debt, and lies between 50 and 70. *)
Theorem rule_score_without_income (r1 r2 : features) :
  int64_row r1 = true -> int64_row r2 = true ->
  gtb (annual_income r1) (of_int 0) = false ->
  gtb (annual_income r2) (of_int 0) = false ->
  credit_score r1 = credit_score r2 ->
  rule_probability r1
  = Ok (combine (clamped_credit (of_int (credit_score r1))) (Fin 0) (Fin 0)) /\
  exists n,
    score_features classifier_predict_proba RuleBasedModel r1 = Ok n /\
    score_features classifier_predict_proba RuleBasedModel r2 = Ok n /\
    (50 <= n <= 70)%Z.
Proof.
  intros I1 I2 H1 H2 Hcs.
  assert (E : forall r, gtb (annual_income r) (of_int 0) = false ->
            rule_probability r
            = Ok (combine (clamped_credit (of_int (credit_score r))) (Fin 0) (Fin 0))).
  { intros r H. rewrite rule_probability_eq.
    rewrite (guarded_ratio_otherwise _ _ _ (monthly_income_not_positive _ H)).
    rewrite (guarded_ratio_otherwise _ _ _ H). reflexivity. }
  split; [exact (E r1 H1)|].
  rewrite (score_features_rule _ r1 I1), (score_features_rule _ r2 I2).
  rewrite (E r1 H1), (E r2 H2), <- Hcs. cbn [bind].
  destruct (clamped_credit_range (of_int (credit_score r1))) as (c & Hc & Hc0 & Hc1).
  rewrite Hc.
  assert (Z0 : 0 <= 0 <= 1) by (split; discriminate).
  destruct (combine_range (Fin c) (Fin 0) (Fin 0)) as (p & Hp & Hp1 & Hp2).
  pose proof (combine_lower c 0 0 (conj Hc0 Hc1) Z0 Z0) as Hlow.
  pose proof (combine_mono c 1 0 0 Hc0 Hc1 Z0 Z0) as Hup.
  rewrite Hp in Hlow, Hup |- *. apply leb_Fin in Hlow.
  destruct (score_of_prob_upper_half p Hlow Hp2) as (n & Hn & Hn50 & _).
  exists n. split; [exact Hn|]. split; [exact Hn|]. split; [exact Hn50|].
  destruct (combine_range (Fin 1) (Fin 0) (Fin 0)) as (p' & Hp' & Hp1' & Hp2').
  rewrite Hp' in Hup. apply leb_Fin in Hup.
  apply (score_of_prob_mono p p' n 70 Hp1 Hp2' Hup Hn).
  rewrite <- Hp'. vm_compute. reflexivity.
Qed.

End RuleBasedScoreEdges.

Lemma predict_proba_rows_float (X rows : list features) :
  float64_rows X = true ->
  exists results,
    predict_proba_rows X rows = Ok results /\
    Forall2 (fun r row => exists q p,
               rule_probability r = Ok (Fin p) /\
               row = [Fin q; Fin p] /\ sub (of_int 1) (Fin p) = Fin q /\
               0 <= q <= 1 # 2 /\ 1 # 2 <= p <= 1) rows results.
Proof.
  intros HX. induction rows as [|r rows (results & E & IH)].
  - exists []. split; [reflexivity | constructor].
  - destruct (rule_probability_factors r) as (c & d & l & _ & _ & _ & Er & Hc & Hd & Hl).
    destruct (combine_range (Fin c) (Fin d) (Fin l)) as (p & Hp & _ & H2).
    pose proof (combine_lower c d l Hc Hd Hl) as H1. rewrite Hp in H1, Er.
    apply leb_Fin in H1.
    assert (Hp1 : p <= 1).
    { apply leb_Fin. apply leb_trans with (lit 0.95); [exact H2 | vm_compute; reflexivity]. }
    destruct (round_between 0 (1 # 2) 0 (1 # 2) (1 + Qred (- p))) as (q & Hq & Hq1 & Hq2).
    + reflexivity.
    + vm_compute. reflexivity.
    + rewrite Qred_correct. split; lra.
    + exists ([Fin q; Fin p] :: results). split.
      * cbn [predict_proba_rows]. unfold rule_row.
        rewrite (row_probability_float X r HX), Er. cbn [bind].
        rewrite E. cbn [bind]. rewrite of_int_1. unfold sub. cbn [neg add]. rewrite Hq.
        reflexivity.
      * constructor; [|exact IH].
        exists q, p. rewrite of_int_1. unfold sub. cbn [neg add]. rewrite Hq. auto 10.
Qed.

(** X6: on a frame with the columns [predict_approval] gives it, the
    amount, the income and the debt of dtype float64 and the three others
    of integers in the range of int64, of any number of rows,
    [RuleBasedModel.predict_proba] does not raise: it returns one
    row per input row, in order, each a pair [[1 - p, p]] of floats with p
    the probability of the input row and 1 - p <= 0.5 <= p: the rule-based
    model never finds a rejection more likely than an approval. *)
Theorem RuleBasedModel_predict_proba_rows (X : list features) :
  forallb int64_row X = true ->
  exists results,
    RuleBasedModel_predict_proba X = Ok results /\
    Forall2 (fun r row => exists q p,
               rule_probability r = Ok (Fin p) /\
               row = [Fin q; Fin p] /\ sub (of_int 1) (Fin p) = Fin q /\
               0 <= q <= 1 # 2 /\ 1 # 2 <= p <= 1) X results.
Proof.
  intros H. apply predict_proba_rows_float, int64_rows_float, H.
Qed.

(** ** The life cycle of the model file *)

Section LifeCycleFacts.

Context {classifier : Type}.
Variable fit : list features -> list Z -> classifier.
Variable classifier_predict_proba : classifier -> list features -> list (list float64).

Lemma predict_approval_files (fs : files classifier) (application_data : gmap string pyval) :
  fst (predict_approval fit classifier_predict_proba fs application_data)
  = fst (train_model_if_needed fit fs).
Proof. unfold predict_approval. destruct (train_model_if_needed fit fs). reflexivity. Qed.

Lemma predict_approval_result (fs : files classifier) (application_data : gmap string pyval) :
  snd (predict_approval fit classifier_predict_proba fs application_data)
  = (do _ <- snd (train_model_if_needed fit fs) ;
     do m <- load_model (fst (train_model_if_needed fit fs)) ;
     do f <- extract_features application_data ;
     score_features classifier_predict_proba m f).
Proof. unfold predict_approval. destruct (train_model_if_needed fit fs). reflexivity. Qed.

(** X7: a model file is never retrained or replaced.  Once a model file
    exists, whatever it holds, the trainer returns at once and
    [predict_approval] leaves both files as they are; the applications file
    is not read any more, so the result for a record is the same whatever
    applications and decisions have arrived since. *)
Theorem model_file_is_never_retrained (fs : files classifier) (a : artifact classifier)
    (later_applications : option (list application))
    (application_data : gmap string pyval) :
  MODEL_FILE fs = Some a ->
  train_model_if_needed fit fs = (fs, Ok tt) /\
  fst (predict_approval fit classifier_predict_proba fs application_data) = fs /\
  snd (predict_approval fit classifier_predict_proba
         {| MODEL_FILE := Some a; loan_applications_csv := later_applications |}
         application_data)
  = snd (predict_approval fit classifier_predict_proba fs application_data).
Proof.
  intros H.
  assert (E : train_model_if_needed fit fs = (fs, Ok tt)).
  { unfold train_model_if_needed. rewrite H. reflexivity. }
  split; [exact E|]. split.
  - rewrite predict_approval_files, E. reflexivity.
  - rewrite !predict_approval_result, E.
    unfold train_model_if_needed, load_model. cbn [MODEL_FILE fst snd bind].
    rewrite H. reflexivity.
Qed.

(** X8: with no model file and fewer than ten decided applications (or no
    applications file) [predict_approval] raises the AttributeError of
    [pickle.dump], and the incomplete model file it leaves makes every later
    call raise EOFError, whatever the record and whatever applications have
    arrived since. *)
Theorem prediction_fails_without_training_data (fs : files classifier)
    (later_applications : option (list application))
    (application_data later_data : gmap string pyval) :
  MODEL_FILE fs = None ->
  (Z.of_nat (length match loan_applications_csv fs with
                    | Some applications_df => List.filter decided applications_df
                    | None => []
                    end) < 10)%Z ->
  let fs1 := fst (predict_approval fit classifier_predict_proba fs application_data) in
  snd (predict_approval fit classifier_predict_proba fs application_data)
  = Raise AttributeError /\
  snd (predict_approval fit classifier_predict_proba
         {| MODEL_FILE := MODEL_FILE fs1; loan_applications_csv := later_applications |}
         later_data)
  = Raise EOFError.
Proof.
  intros Hnone Hfew. cbv zeta.
  rewrite !predict_approval_result, predict_approval_files.
  pose proof (train_model_if_needed_decision fit fs Hnone) as E. cbv zeta in E.
  apply Z.leb_gt in Hfew. rewrite Hfew in E. rewrite E. split; reflexivity.
Qed.

(** X9: with no model file and at least ten decided applications
    [predict_approval] fits the classifier on the decided rows, stores it,
    and returns [int(p1 * 100)] for the class-1 probability p1 the fitted
    classifier gives to the extracted features. *)
Theorem prediction_after_training (fs : files classifier)
    (application_data : gmap string pyval) (f : features)
    (p0 p1 : float64) (ps : list float64) (rows : list (list float64)) :
  let decided_apps :=
    match loan_applications_csv fs with
    | Some applications_df => List.filter decided applications_df
    | None => []
    end in
  let clf := fit (map app_features decided_apps) (map label decided_apps) in
  MODEL_FILE fs = None ->
  (10 <= Z.of_nat (length decided_apps))%Z ->
  extract_features application_data = Ok f ->
  classifier_predict_proba clf [f] = (p0 :: p1 :: ps) :: rows ->
  predict_approval fit classifier_predict_proba fs application_data
  = ({| MODEL_FILE := Some (Pickled (RandomForestClassifier clf));
        loan_applications_csv := loan_applications_csv fs |},
     score_of_prob p1).
Proof.
  cbv zeta. intros Hnone Hmany Hf Hp.
  pose proof (train_model_if_needed_decision fit fs Hnone) as E. cbv zeta in E.
  apply Z.leb_le in Hmany. rewrite Hmany in E.
  unfold predict_approval. rewrite E. unfold save_model. cbn [pickle_dump].
  f_equal. cbn [bind load_model MODEL_FILE pickle_load]. rewrite Hf. cbn [bind].
  unfold score_features. cbn [predict_proba bind]. rewrite Hp. reflexivity.
Qed.

End LifeCycleFacts.

(** ** What the record is read for *)

Lemma extract_features_inv (application_data : gmap string pyval) (f : features) :
  extract_features application_data = Ok f ->
  py_float (get application_data "loan_amount") = Ok (loan_amount f) /\
  py_int (get application_data "loan_term") = Ok (loan_term f) /\
  py_float (get application_data "annual_income") = Ok (annual_income f) /\
  py_int (get application_data "employment_length") = Ok (employment_length f) /\
  py_int (get application_data "credit_score") = Ok (credit_score f) /\
  py_float (get application_data "monthly_debt") = Ok (monthly_debt f).
Proof.
  unfold extract_features.
  destruct (py_float (get application_data "loan_amount")); [|discriminate].
  destruct (py_int (get application_data "loan_term")); [|discriminate].
  destruct (py_float (get application_data "annual_income")); [|discriminate].
  destruct (py_int (get application_data "employment_length")); [|discriminate].
  destruct (py_int (get application_data "credit_score")); [|discriminate].
  destruct (py_float (get application_data "monthly_debt")); [|discriminate].
  cbn [bind]. intros H. injection H as <-.
  cbn [loan_amount loan_term annual_income employment_length credit_score monthly_debt].
  auto 10.
Qed.

Section RecordFields.

Context {classifier : Type}.
Variable fit : list features -> list Z -> classifier.
Variable classifier_predict_proba : classifier -> list features -> list (list float64).

(** X10: [predict_approval] reads six fields of the record and nothing
    else: two records that give the same value, read with the default 0, for
    loan_amount, loan_term, annual_income, employment_length, credit_score
    and monthly_debt leave the same files and get the same score or the same
    exception, whatever else they hold; a missing field and a field that is
    0 are not told apart. *)
Theorem prediction_reads_six_fields (fs : files classifier)
    (d1 d2 : gmap string pyval) :
  get d1 "loan_amount" = get d2 "loan_amount" ->
  get d1 "loan_term" = get d2 "loan_term" ->
  get d1 "annual_income" = get d2 "annual_income" ->
  get d1 "employment_length" = get d2 "employment_length" ->
  get d1 "credit_score" = get d2 "credit_score" ->
  get d1 "monthly_debt" = get d2 "monthly_debt" ->
  predict_approval fit classifier_predict_proba fs d1
  = predict_approval fit classifier_predict_proba fs d2.
Proof.
  intros H1 H2 H3 H4 H5 H6.
  assert (E : extract_features d1 = extract_features d2).
  { unfold extract_features. rewrite H1, H2, H3, H4, H5, H6. reflexivity. }
  unfold predict_approval. destruct (train_model_if_needed fit fs) as [fs' trained].
  rewrite E. reflexivity.
Qed.

(** X11: the explanation follows the score.  Whenever [predict_approval]
    returns a score for a record, [get_model_explanation] on the same record
    does not raise and returns its four messages, provided the loan term,
    cut to an integer, is in the range of a float. *)
Theorem explanation_after_prediction (fs : files classifier)
    (application_data : gmap string pyval) (score : Z) :
  snd (predict_approval fit classifier_predict_proba fs application_data) = Ok score ->
  (forall loan_term, py_int (get application_data "loan_term") = Ok loan_term ->
                     (loan_term < 2 ^ 1024 - 2 ^ 970)%Z) ->
  exists (f : features) (dti_ratio payment_to_income : float64),
    extract_features application_data = Ok f /\
    get_model_explanation application_data
    = Ok [ credit_explanation (credit_score f);
           dti_explanation dti_ratio;
           payment_explanation payment_to_income;
           amount_explanation (loan_amount f) (annual_income f) ].
Proof.
  intros Hs Hb.
  assert (Hf : exists f, extract_features application_data = Ok f).
  { unfold predict_approval in Hs.
    destruct (train_model_if_needed fit fs) as [fs' trained]. cbn [snd] in Hs.
    destruct trained; [|discriminate Hs]. cbn [bind] in Hs.
    destruct (load_model fs'); [|discriminate Hs]. cbn [bind] in Hs.
    destruct (extract_features application_data) as [f|]; [|discriminate Hs].
    exists f. reflexivity. }
  destruct Hf as [f Hf]. exists f.
  destruct (extract_features_inv _ _ Hf) as (E1 & E2 & E3 & _ & E5 & E6).
  unfold get_model_explanation. rewrite E1, E2, E3, E5, E6. cbn [bind].
  rewrite monthly_income_of_eq. cbn [bind].
  destruct (explained_dti_ratio_ok (monthly_debt f) (quotient (annual_income f) (Fin 12)))
    as (dti & Hdti & _).
  destruct (explained_monthly_payment_ok (loan_amount f) (loan_term f) (Hb _ E2))
    as (mp & Hmp & _).
  destruct (explained_payment_to_income_ok mp (quotient (annual_income f) (Fin 12)))
    as (pti & Hpti & _).
  rewrite Hdti. cbn [bind]. rewrite Hmp. cbn [bind]. rewrite Hpti. cbn [bind].
  exists dti, pti. split; [exact Hf | reflexivity].
Qed.

End RecordFields.

(** X12: without a positive annual income (zero, negative or NaN) the
    explanation never raises on a coercible record, and its second and third
    messages are the ones of a high debt-to-income ratio and of a high
    payment, whatever the debt, the amount and the term: both ratios are
    taken as infinite. *)
Theorem explanation_without_income (application_data : gmap string pyval)
    (loan_amount : float64) (loan_term : Z) (annual_income : float64)
    (credit_score : Z) (monthly_debt : float64) :
  py_float (get application_data "loan_amount") = Ok loan_amount ->
  py_int (get application_data "loan_term") = Ok loan_term ->
  py_float (get application_data "annual_income") = Ok annual_income ->
  py_int (get application_data "credit_score") = Ok credit_score ->
  py_float (get application_data "monthly_debt") = Ok monthly_debt ->
  (loan_term < 2 ^ 1024 - 2 ^ 970)%Z ->
  gtb annual_income (of_int 0) = false ->
  get_model_explanation application_data
  = Ok [ credit_explanation credit_score;
         "Your high debt-to-income ratio may limit approval chances.";
         "The proposed loan payment is high relative to your income.";
         amount_explanation loan_amount annual_income ]%string.
Proof.
  intros E1 E2 E3 E4 E5 Hb Hai.
  pose proof (monthly_income_not_positive _ Hai) as Hmi.
  unfold get_model_explanation. rewrite E1, E2, E3, E4, E5. cbn [bind].
  rewrite monthly_income_of_eq. cbn [bind].
  destruct (explained_monthly_payment_ok loan_amount loan_term Hb) as (mp & Hmp & _).
  unfold explained_dti_ratio, explained_payment_to_income.
  rewrite Hmi. cbn [bind]. rewrite Hmp. cbn [bind]. reflexivity.
Qed.

(** ** Instances *)

Lemma rule_score_at_least_50_witness :
  (Z.abs (2 ^ 70) < 2 ^ 1024)%Z /\
  (exists p, row_probability [scenario_with (2 ^ 70) 3] (scenario_with (2 ^ 70) 3)
             = Ok (Fin p) /\
             leb (lit 0.5) (Fin p) = true /\ leb (Fin p) (lit 0.95) = true) /\
  score_features forest_0_896 RuleBasedModel (scenario_with (2 ^ 70) 3) = Ok 93%Z.
Proof.
  split; [reflexivity|].
  destruct (rule_score_at_least_50 forest_0_896 (scenario_with (2 ^ 70) 3))
    as (p & n & E & H1 & H2 & En & _); [reflexivity|].
  split; [exists p; auto|].
  rewrite En. vm_compute in En. injection En as <-. reflexivity.
Defined.

Lemma RuleBasedModel_predict_proba_rows_witness :
  forallb int64_row [scenario_features; scenario_with 750 30] = true /\
  exists q1 p1 q2 p2,
    RuleBasedModel_predict_proba [scenario_features; scenario_with 750 30]
    = Ok [[Fin q1; Fin p1]; [Fin q2; Fin p2]] /\
    rule_probability scenario_features = Ok (Fin p1) /\
    rule_probability (scenario_with 750 30) = Ok (Fin p2) /\
    q1 <= 1 # 2 <= p1 /\ q2 <= 1 # 2 <= p2.
Proof.
  split; [reflexivity|].
  destruct (RuleBasedModel_predict_proba_rows [scenario_features; scenario_with 750 30])
    as (results & E & H); [reflexivity|].
  inversion H as [|r1 row1 X1 results1 H1 H']; subst.
  inversion H' as [|r2 row2 X2 results2 H2 H'']; subst.
  inversion H''; subst.
  destruct H1 as (q1 & p1 & E1 & -> & _ & Hq1 & Hp1).
  destruct H2 as (q2 & p2 & E2 & -> & _ & Hq2 & Hp2).
  exists q1, p1, q2, p2. rewrite E. tauto.
Defined.

Lemma model_file_is_never_retrained_witness :
  MODEL_FILE learned_files = Some (Pickled (RandomForestClassifier tt)) /\
  train_model_if_needed (fun _ _ => tt) learned_files = (learned_files, Ok tt) /\
  fst (predict_approval (fun _ _ => tt) forest_0_896 learned_files scenario_record)
  = learned_files /\
  snd (predict_approval (fun _ _ => tt) forest_0_896
         {| MODEL_FILE := Some (Pickled (RandomForestClassifier tt));
            loan_applications_csv := Some ten_decided |}
         scenario_record)
  = snd (predict_approval (fun _ _ => tt) forest_0_896 learned_files scenario_record).
Proof.
  split; [reflexivity|].
  apply (model_file_is_never_retrained (fun _ _ => tt) forest_0_896 learned_files
           (Pickled (RandomForestClassifier tt)) (Some ten_decided) scenario_record).
  reflexivity.
Defined.

Lemma rule_score_saturates_in_credit_score_witness :
  (800 <= 800 /\ 800 <= 850)%Z /\
  score_features forest_0_896 RuleBasedModel
    {| loan_amount := of_int 10000; loan_term := 3; annual_income := of_int 50000;
       employment_length := 1; credit_score := 800; monthly_debt := of_int 1000 |}
  = score_features forest_0_896 RuleBasedModel
      {| loan_amount := of_int 10000; loan_term := 3; annual_income := of_int 50000;
         employment_length := 1; credit_score := 850; monthly_debt := of_int 1000 |}.
Proof.
  split; [split; discriminate|].
  apply (rule_score_saturates_in_credit_score forest_0_896
           {| loan_amount := of_int 10000; loan_term := 3; annual_income := of_int 50000;
              employment_length := 1; credit_score := 800; monthly_debt := of_int 1000 |}
           {| loan_amount := of_int 10000; loan_term := 3; annual_income := of_int 50000;
              employment_length := 1; credit_score := 850; monthly_debt := of_int 1000 |});
    try reflexivity.
  left. split; discriminate.
Defined.

Lemma rule_score_antitone_in_monthly_debt_witness :
  leb (monthly_debt scenario_features) (of_int 2000) = true /\
  exists n1 n2,
    score_features forest_0_896 RuleBasedModel scenario_features = Ok n1 /\
    score_features forest_0_896 RuleBasedModel
      {| loan_amount := of_int 10000; loan_term := 3; annual_income := of_int 50000;
         employment_length := 1; credit_score := 700; monthly_debt := of_int 2000 |}
    = Ok n2 /\
    (n2 <= n1)%Z.
Proof.
  split; [vm_compute; reflexivity|].
  apply (rule_score_antitone_in_monthly_debt forest_0_896 scenario_features
           {| loan_amount := of_int 10000; loan_term := 3; annual_income := of_int 50000;
              employment_length := 1; credit_score := 700; monthly_debt := of_int 2000 |});
    reflexivity.
Defined.

Lemma rule_score_antitone_in_loan_amount_witness :
  leb (loan_amount scenario_features) (of_int 40000) = true /\
  exists n1 n2,
    score_features forest_0_896 RuleBasedModel scenario_features = Ok n1 /\
    score_features forest_0_896 RuleBasedModel
      {| loan_amount := of_int 40000; loan_term := 3; annual_income := of_int 50000;
         employment_length := 1; credit_score := 700; monthly_debt := of_int 1000 |}
    = Ok n2 /\
    (n2 <= n1)%Z.
Proof.
  split; [vm_compute; reflexivity|].
  apply (rule_score_antitone_in_loan_amount forest_0_896 scenario_features
           {| loan_amount := of_int 40000; loan_term := 3; annual_income := of_int 50000;
              employment_length := 1; credit_score := 700; monthly_debt := of_int 1000 |});
    reflexivity.
Defined.

Lemma rule_score_without_income_witness :
  gtb (of_int 0) (of_int 0) = false /\ gtb NaN (of_int 0) = false /\
  exists n,
    score_features forest_0_896 RuleBasedModel
      {| loan_amount := of_int 10000; loan_term := 3; annual_income := of_int 0;
         employment_length := 1; credit_score := 700; monthly_debt := of_int 0 |}
    = Ok n /\
    score_features forest_0_896 RuleBasedModel
      {| loan_amount := of_int 500000; loan_term := 3; annual_income := NaN;
         employment_length := 1; credit_score := 700; monthly_debt := of_int 9000 |}
    = Ok n /\
    (50 <= n <= 70)%Z.
Proof.
  split; [reflexivity|]. split; [reflexivity|].
  apply (rule_score_without_income forest_0_896
           {| loan_amount := of_int 10000; loan_term := 3; annual_income := of_int 0;
              employment_length := 1; credit_score := 700; monthly_debt := of_int 0 |}
           {| loan_amount := of_int 500000; loan_term := 3; annual_income := NaN;
              employment_length := 1; credit_score := 700; monthly_debt := of_int 9000 |});
    reflexivity.
Defined.

Lemma prediction_fails_without_training_data_witness :
  MODEL_FILE (no_model_file (classifier := unit) nine_decided) = None /\
  snd (predict_approval (fun _ _ => tt) forest_0_896 (no_model_file nine_decided)
         scenario_record)
  = Raise AttributeError /\
  snd (predict_approval (fun _ _ => tt) forest_0_896
         {| MODEL_FILE :=
              MODEL_FILE (fst (predict_approval (fun _ _ => tt) forest_0_896
                                 (no_model_file nine_decided) scenario_record));
            loan_applications_csv := Some ten_decided |}
         scenario_record)
  = Raise EOFError.
Proof.
  split; [reflexivity|].
  apply (prediction_fails_without_training_data (fun _ _ => tt) forest_0_896
           (no_model_file nine_decided) (Some ten_decided) scenario_record scenario_record).
  - reflexivity.
  - reflexivity.
Defined.

Lemma prediction_after_training_witness :
  (10 <= Z.of_nat (length (List.filter decided ten_decided)))%Z /\
  extract_features scenario_record = Ok scenario_features /\
  predict_approval (fun _ _ => tt) forest_0_896 (no_model_file ten_decided) scenario_record
  = ({| MODEL_FILE := Some (Pickled (RandomForestClassifier tt));
        loan_applications_csv := Some ten_decided |},
     Ok 89%Z).
Proof.
  split; [discriminate|]. split; [vm_compute; reflexivity|].
  rewrite (prediction_after_training (fun _ _ => tt) forest_0_896
             (no_model_file ten_decided) scenario_record scenario_features
             (lit 0.104) (lit 0.896) [] []).
  - vm_compute. reflexivity.
  - reflexivity.
  - discriminate.
  - vm_compute. reflexivity.
  - reflexivity.
Defined.

Lemma prediction_reads_six_fields_witness :
  predict_approval (fun _ _ => tt) forest_0_896 rule_files
    (<[ "zip_code" := PyInt 12345 ]> (<[ "employment_length" := PyInt 0 ]> scenario_record))
  = predict_approval (fun _ _ => tt) forest_0_896 rule_files
      (delete "employment_length" scenario_record).
Proof.
  apply (prediction_reads_six_fields (fun _ _ => tt) forest_0_896 rule_files);
    vm_compute; reflexivity.
Defined.

Lemma explanation_after_prediction_witness :
  snd (predict_approval (fun _ _ => tt) forest_0_896 rule_files scenario_record) = Ok 89%Z /\
  exists (f : features) (dti_ratio payment_to_income : float64),
    extract_features scenario_record = Ok f /\
    get_model_explanation scenario_record
    = Ok [ credit_explanation (credit_score f);
           dti_explanation dti_ratio;
           payment_explanation payment_to_income;
           amount_explanation (loan_amount f) (annual_income f) ].
Proof.
  split; [vm_compute; reflexivity|].
  apply (explanation_after_prediction (fun _ _ => tt) forest_0_896 rule_files
           scenario_record 89).
  - vm_compute. reflexivity.
  - intros t H. vm_compute in H. injection H as <-. reflexivity.
Defined.

Lemma explanation_without_income_witness :
  gtb (Fin 0) (of_int 0) = false /\
  get_model_explanation {[ "credit_score" := PyInt 720; "loan_term" := PyInt 3 ]}
  = Ok [ "Your good credit score is a positive factor.";
         "Your high debt-to-income ratio may limit approval chances.";
         "The proposed loan payment is high relative to your income.";
         "Your requested loan amount is conservative relative to your annual income."
       ]%string.
Proof.
  split; [reflexivity|].
  rewrite (explanation_without_income
             {[ "credit_score" := PyInt 720; "loan_term" := PyInt 3 ]}
             (Fin 0) 3 (Fin 0) 720 (Fin 0)); try (vm_compute; reflexivity).
Defined.

(** ** The score and the income *)

(** A non-negative amount divided by a larger positive number is not
    larger. *)
Lemma quotient_antitone_r (m : Q) (y1 y2 : float64) :
  0 <= m -> gtb y1 (of_int 0) = true -> leb y1 y2 = true ->
  leb (quotient (Fin m) y2) (quotient (Fin m) y1) = true.
Proof.
  intros Hm. rewrite of_int_0. unfold gtb.
  destruct y1 as [|s1|b1], y2 as [|s2|b2]; simpl; try discriminate;
    try destruct s1; try destruct s2; simpl; try discriminate; intros H1 H2.
  - reflexivity.
  - change (leb (round 0) (round (m / b1)) = true). apply round_mono.
    apply Qltb_lt in H1. apply Qle_shift_div_l; [exact H1|]. lra.
  - apply Qltb_lt in H1. apply Qle_bool_iff in H2.
    change (leb (round (m / b2)) (round (m / b1)) = true). apply round_mono.
    assert (H0 : 0 < b2) by lra.
    apply Qle_shift_div_l; [exact H1|].
    assert (E : m / b2 * b1 == m * b1 / b2) by (field; lra).
    rewrite E. apply Qle_shift_div_r; [exact H0|].
    rewrite (Qmult_comm m b1), (Qmult_comm m b2).
    apply Qmult_le_compat_r; assumption.
Qed.

Lemma gtb_zero_mono (y1 y2 : float64) :
  gtb y1 (of_int 0) = true -> leb y1 y2 = true -> gtb y2 (of_int 0) = true.
Proof. unfold gtb. intros H1 H2. exact (ltb_leb_trans _ _ _ H1 H2). Qed.

(** The factor of a guarded ratio grows with the divisor. *)
Lemma guarded_factor_mono_den (m : Q) (y1 y2 : float64) :
  0 <= m -> leb y1 y2 = true ->
  leb (dti_factor_of (guarded_ratio (Fin m) y1 (of_int 1)))
      (dti_factor_of (guarded_ratio (Fin m) y2 (of_int 1))) = true.
Proof.
  intros Hm H. unfold guarded_ratio.
  destruct (gtb y1 (of_int 0)) eqn:E1.
  - rewrite (gtb_zero_mono _ _ E1 H).
    apply dti_factor_antitone, quotient_antitone_r; assumption.
  - destruct (unit_factor (sub (of_int 1)
                (if gtb y2 (of_int 0) then quotient (Fin m) y2 else of_int 1)))
      as (q & Hq & Hq0 & _).
    unfold dti_factor_of at 2. rewrite Hq.
    replace (dti_factor_of (of_int 1)) with (Fin 0) by (vm_compute; reflexivity).
    apply leb_Fin, Hq0.
Qed.

Section RuleBasedScoreIncome.

Context {classifier : Type}.
Variable fit : list features -> list Z -> classifier.
Variable classifier_predict_proba : classifier -> list features -> list (list float64).

(** X13: two rows whose integers are in the range of int64 and that
    differ only in the annual income, the second one having the larger, with
    a monthly debt and a requested amount that are not negative, get scores
    in the same order: a higher income never lowers the score. *)
Theorem rule_score_monotone_in_annual_income (r1 r2 : features) (amount debt : Q) :
  int64_row r1 = true -> int64_row r2 = true ->
  loan_amount r1 = Fin amount -> loan_amount r2 = Fin amount -> 0 <= amount ->
  monthly_debt r1 = Fin debt -> monthly_debt r2 = Fin debt -> 0 <= debt ->
  credit_score r1 = credit_score r2 ->
  leb (annual_income r1) (annual_income r2) = true ->
  exists n1 n2,
    score_features classifier_predict_proba RuleBasedModel r1 = Ok n1 /\
    score_features classifier_predict_proba RuleBasedModel r2 = Ok n2 /\
    (n1 <= n2)%Z.
Proof.
  intros I1 I2 Hla1 Hla2 Ha Hmd1 Hmd2 Hd Hcs Hai.
  destruct (rule_probability_factors r1) as (c & d1 & l1 & Ec & Ed1 & El1 & E1 & Hc & Hd1 & Hl1).
  destruct (rule_probability_factors r2) as (c' & d2 & l2 & Ec' & Ed2 & El2 & E2 & _ & Hd2 & Hl2).
  rewrite <- Hcs, Ec in Ec'. injection Ec' as <-.
  rewrite Hla1 in El1. rewrite Hla2 in El2. rewrite Hmd1 in Ed1. rewrite Hmd2 in Ed2.
  assert (Hmi : leb (quotient (annual_income r1) (Fin 12))
                    (quotient (annual_income r2) (Fin 12)) = true)
    by (apply quotient_mono_l; [reflexivity | exact Hai]).
  pose proof (guarded_factor_mono_den debt _ _ Hd Hmi) as Hdd.
  pose proof (guarded_factor_mono_den amount _ _ Ha Hai) as Hll.
  change dti_factor_of with lti_factor_of in Hll.
  rewrite Ed1, Ed2 in Hdd. rewrite El1, El2 in Hll.
  apply leb_Fin in Hdd, Hll.
  pose proof (combine_mono_dti c d1 d2 l1 Hc (proj1 Hd1) Hdd (proj2 Hd2) Hl1) as Hm1.
  pose proof (combine_mono_lti c d2 l1 l2 Hc Hd2 (proj1 Hl1) Hll (proj2 Hl2)) as Hm2.
  pose proof (leb_trans _ _ _ Hm1 Hm2) as Hm.
  destruct (combine_range (Fin c) (Fin d1) (Fin l1)) as (p1 & Hp1 & H11 & H12).
  destruct (combine_range (Fin c) (Fin d2) (Fin l2)) as (p2 & Hp2 & H21 & H22).
  rewrite Hp1, Hp2 in Hm. apply leb_Fin in Hm.
  rewrite (score_features_rule _ r1 I1), (score_features_rule _ r2 I2).
  rewrite E1, E2, Hp1, Hp2. cbn [bind].
  destruct (score_of_prob_range p1 H11 H12) as (n1 & Hn1 & _).
  destruct (score_of_prob_range p2 H21 H22) as (n2 & Hn2 & _).
  exists n1, n2. split; [exact Hn1|]. split; [exact Hn2|].
  exact (score_of_prob_mono p1 p2 n1 n2 H11 H22 Hm Hn1 Hn2).
Qed.


End RuleBasedScoreIncome.

Lemma rule_score_monotone_in_annual_income_witness :
  leb (annual_income scenario_features) (of_int 80000) = true /\
  exists n1 n2,
    score_features forest_0_896 RuleBasedModel scenario_features = Ok n1 /\
    score_features forest_0_896 RuleBasedModel
      {| loan_amount := of_int 10000; loan_term := 3; annual_income := of_int 80000;
         employment_length := 1; credit_score := 700; monthly_debt := of_int 1000 |}
    = Ok n2 /\
    (n1 <= n2)%Z.
Proof.
  split; [vm_compute; reflexivity|].
  apply (rule_score_monotone_in_annual_income forest_0_896 scenario_features
           {| loan_amount := of_int 10000; loan_term := 3; annual_income := of_int 80000;
              employment_length := 1; credit_score := 700; monthly_debt := of_int 1000 |}
           10000 1000);
    try (vm_compute; reflexivity); discriminate.
Defined.


(** * The helpers of utils.py and the pages *)

Lemma calculate_dti_ratio_eq (monthly_debt annual_income : float64) :
  leb annual_income (of_int 0) = true \/
  gtb (quotient annual_income (Fin 12)) (of_int 0) = true ->
  calculate_dti_ratio monthly_debt annual_income
  = explained_dti_ratio monthly_debt (quotient annual_income (Fin 12)).
Proof.
  intros H. unfold calculate_dti_ratio, explained_dti_ratio.
  destruct (leb annual_income (of_int 0)) eqn:E.
  - rewrite (monthly_income_not_positive _ (leb_ltb_false _ _ E)). reflexivity.
  - destruct H as [H|H]; [discriminate H|].
    rewrite H. change (of_int 12) with (Fin 12).
    rewrite truediv_Fin by discriminate. reflexivity.
Qed.

(** X15: [calculate_dti_ratio] returns the ratio [get_model_explanation]
    works with, the monthly debt divided by a twelfth of the annual income
    and infinity without an income, for every annual income that is not
    positive and for every one whose twelfth part is positive. *)
Theorem calculate_dti_ratio_is_explained_ratio (monthly_debt annual_income : float64) :
  leb annual_income (of_int 0) = true \/
  gtb (quotient annual_income (Fin 12)) (of_int 0) = true ->
  calculate_dti_ratio monthly_debt annual_income
  = (do monthly_income <- monthly_income_of annual_income ;
     explained_dti_ratio monthly_debt monthly_income).
Proof.
  intros H. rewrite monthly_income_of_eq. cbn [bind].
  apply calculate_dti_ratio_eq, H.
Qed.

(** ** The 43% warning and the explanation *)

(** Between two neighbours of the grid of a binade, rounding returns one
    of the two. *)
Lemma round_grid (x : Q) (k A : Z) :
  (-1074 <= k - 52)%Z ->
  pow2 k <= x -> x < pow2 (k + 1) ->
  inject_Z A * pow2 (k - 52) <= x -> x <= inject_Z (A + 1) * pow2 (k - 52) ->
  inject_Z (A + 1) * pow2 (k - 52) < pow2 1024 ->
  exists n, (n = A \/ n = (A + 1)%Z) /\
            round x = Fin (Qred (inject_Z n * pow2 (k - 52))).
Proof.
  intros Hk H1 H2 Ha Hs Hmax.
  pose proof (pow2_pos k) as Hpk. pose proof (pow2_pos (k - 52)) as Hpe.
  assert (Hx : 0 < x) by lra.
  assert (Er : rexp x = (k - 52)%Z).
  { unfold rexp. rewrite (ilog2_unique x k H1 H2). lia. }
  assert (Hn : (A <= rne (x / pow2 (k - 52)) <= A + 1)%Z).
  { split.
    - apply rne_ge. apply Qle_shift_div_l; assumption.
    - apply rne_le. apply Qle_shift_div_r; assumption. }
  assert (Ev : rval x = inject_Z (rne (x / pow2 (k - 52))) * pow2 (k - 52)).
  { unfold rval. rewrite Er. reflexivity. }
  exists (rne (x / pow2 (k - 52))). split; [lia|].
  unfold round. destruct (Qcompare_spec x 0) as [H0|H0|H0]; try (exfalso; lra).
  unfold round_pos. rewrite Ev.
  destruct (Qle_bool (pow2 1024) _) eqn:E; [|reflexivity].
  exfalso. apply Qle_bool_iff in E.
  assert (inject_Z (rne (x / pow2 (k - 52))) <= inject_Z (A + 1))
    by (rewrite <- Zle_Qle; lia).
  assert (inject_Z (rne (x / pow2 (k - 52))) * pow2 (k - 52)
          <= inject_Z (A + 1) * pow2 (k - 52))
    by (apply Qmult_le_compat_r; lra).
  lra.
Qed.

Lemma mul_mono_l_any (x y : float64) (k : Q) :
  0 < k -> leb x y = true -> leb (mul x (Fin k)) (mul y (Fin k)) = true.
Proof.
  intros Hk.
  assert (Ek : (k ?= 0) = Gt) by (apply Qgt_alt; exact Hk).
  destruct x as [|a|a], y as [|b|b]; simpl; rewrite ?Ek; by_cases_bool; intros H.
  - apply leb_bot, round_not_NaN.
  - apply leb_top, round_not_NaN.
  - apply round_mono. apply Qle_bool_iff in H.
    apply Qmult_le_compat_r; lra.
Qed.

(** [ratio * 100 > 43] and [ratio <= 0.43] exclude each other and leave
    no ratio out, for every ratio that is the result of a division. *)
Lemma percent_threshold (x : Q) :
  gtb (mul (round x) (Fin 100)) (Fin 43) = negb (leb (round x) (lit 0.43)).
Proof.
  set (A := 7746191359077253%Z).
  assert (Fa : round (inject_Z A * pow2 (-54)) = lit 0.43) by (vm_compute; reflexivity).
  assert (Fa100 : mul (lit 0.43) (Fin 100) = Fin 43) by (vm_compute; reflexivity).
  assert (Fs : leb (round (inject_Z (A + 1) * pow2 (-54))) (lit 0.43) = false)
    by (vm_compute; reflexivity).
  assert (Fs100 : ltb (Fin 43) (mul (round (inject_Z (A + 1) * pow2 (-54))) (Fin 100)) = true)
    by (vm_compute; reflexivity).
  unfold gtb.
  destruct (Qlt_le_dec (inject_Z A * pow2 (-54)) x) as [Hlo|Hlo].
  - destruct (Qlt_le_dec x (inject_Z (A + 1) * pow2 (-54))) as [Hhi|Hhi].
    + assert (G1 : pow2 (-2) <= inject_Z A * pow2 (-54)) by (vm_compute; discriminate).
      assert (G2 : inject_Z (A + 1) * pow2 (-54) <= pow2 (-2 + 1))
        by (vm_compute; discriminate).
      assert (G3 : inject_Z (A + 1) * pow2 (-54) < pow2 1024) by (vm_compute; reflexivity).
      destruct (round_grid x (-2) A) as (n & [-> | ->] & ->).
      * discriminate.
      * lra.
      * lra.
      * apply Qlt_le_weak, Hlo.
      * apply Qlt_le_weak, Hhi.
      * exact G3.
      * vm_compute. reflexivity.
      * vm_compute. reflexivity.
    + pose proof (round_mono _ _ Hhi) as Hm.
      assert (E : leb (round x) (lit 0.43) = false).
      { destruct (leb (round x) (lit 0.43)) eqn:E; [|reflexivity].
        rewrite (leb_trans _ _ _ Hm E) in Fs. discriminate Fs. }
      rewrite E. cbn [negb].
      apply (ltb_leb_trans _ _ _ Fs100).
      apply mul_mono_l_any; [reflexivity | exact Hm].
  - pose proof (round_mono _ _ Hlo) as Hm. rewrite Fa in Hm.
    rewrite Hm. cbn [negb].
    apply leb_ltb_false. rewrite <- Fa100.
    apply mul_mono_l_any; [reflexivity | exact Hm].
Qed.

Lemma high_dti_explanation (dti_ratio : float64) :
  leb dti_ratio (lit 0.43) = false <->
  dti_explanation dti_ratio
  = "Your high debt-to-income ratio may limit approval chances."%string.
Proof.
  unfold dti_explanation.
  assert (H1 : leb (lit 0.2) (lit 0.43) = true) by (vm_compute; reflexivity).
  assert (H2 : leb (lit 0.36) (lit 0.43) = true) by (vm_compute; reflexivity).
  destruct (leb dti_ratio (lit 0.2)) eqn:E1.
  { rewrite (leb_trans _ _ _ E1 H1). split; discriminate. }
  destruct (leb dti_ratio (lit 0.36)) eqn:E2.
  { rewrite (leb_trans _ _ _ E2 H2). split; discriminate. }
  destruct (leb dti_ratio (lit 0.43)); split; try reflexivity; discriminate.
Qed.

(** X16: for a finite monthly debt and an annual income whose twelfth part
    is positive, the form and the officer dashboard show their warning
    "debt-to-income ratio above 43%" exactly when [get_model_explanation]
    gives the message of a high debt-to-income ratio: [ratio * 100 > 43]
    and [ratio <= 0.43] never disagree on a quotient of two floats. *)
Theorem dti_warnings_match_explanation (debt : Q) (annual_income : float64) :
  gtb (quotient annual_income (Fin 12)) (of_int 0) = true ->
  exists (dti_ratio : float64) (warning : bool),
    (do monthly_income <- monthly_income_of annual_income ;
     explained_dti_ratio (Fin debt) monthly_income) = Ok dti_ratio /\
    form_dti_warning (Fin debt) annual_income = Ok warning /\
    dashboard_dti_warning (Fin debt) annual_income = Ok warning /\
    (warning = true <->
     dti_explanation dti_ratio
     = "Your high debt-to-income ratio may limit approval chances."%string).
Proof.
  intros Hmi.
  assert (Hai : gtb annual_income (of_int 0) = true).
  { destruct (gtb annual_income (of_int 0)) eqn:E; [reflexivity|].
    rewrite (monthly_income_not_positive _ E) in Hmi. discriminate Hmi. }
  set (monthly_income := quotient annual_income (Fin 12)) in *.
  set (dti_ratio := quotient (Fin debt) monthly_income).
  assert (Hw : gtb (mul dti_ratio (of_int 100)) (of_int 43)
               = negb (leb dti_ratio (lit 0.43))).
  { rewrite of_int_100. change (of_int 43) with (Fin 43). unfold dti_ratio.
    destruct monthly_income as [|s|b]; try discriminate Hmi.
    - destruct s; [discriminate Hmi|]. vm_compute. reflexivity.
    - simpl quotient. apply percent_threshold. }
  exists dti_ratio, (negb (leb dti_ratio (lit 0.43))).
  split; [|split; [|split]].
  - rewrite monthly_income_of_eq. cbn [bind]. fold monthly_income.
    unfold explained_dti_ratio. rewrite Hmi. apply truediv_pos, Hmi.
  - unfold form_dti_warning. rewrite Hai.
    change (of_int 12) with (Fin 12). rewrite truediv_Fin by discriminate.
    cbn [bind]. fold monthly_income. rewrite (truediv_pos _ _ Hmi). cbn [bind].
    fold dti_ratio. rewrite Hw. reflexivity.
  - unfold dashboard_dti_warning.
    rewrite (calculate_dti_ratio_eq _ _ (or_intror Hmi)). fold monthly_income.
    unfold explained_dti_ratio. rewrite Hmi, (truediv_pos _ _ Hmi). cbn [bind].
    fold dti_ratio. rewrite Hw. reflexivity.
  - rewrite <- high_dti_explanation. destruct (leb dti_ratio (lit 0.43)); simpl;
      split; congruence.
Qed.

(** ** calculate_monthly_payment *)

Section MonthlyPaymentFacts.

Variable float_pow : float64 -> float64 -> result float64.

Lemma calculate_monthly_payment_rate (a : Q) (t : Z) (interest_rate : float64) :
  0 < a -> (0 < t)%Z -> (t * 12 < 2 ^ 1024 - 2 ^ 970)%Z ->
  exists months,
    of_int (t * 12) = Fin months /\ 0 < months /\
    calculate_monthly_payment float_pow (Fin a) t interest_rate
    = let monthly_rate := quotient (quotient interest_rate (Fin 100)) (Fin 12) in
      if float_eqb monthly_rate (Fin 0) then
        Ok (PyFloat (quotient (Fin a) (Fin months)))
      else
        do growth <- float_pow (add (Fin 1) monthly_rate) (Fin months) ;
        do growth' <- float_pow (add (Fin 1) monthly_rate) (Fin months) ;
        do monthly_payment <- truediv (mul (Fin a) (mul monthly_rate growth))
                                      (sub growth' (Fin 1)) ;
        Ok (PyFloat monthly_payment).
Proof.
  intros Ha Ht Hb.
  destruct (of_int_positive (t * 12)) as (months & Hm & Hpos); [lia|].
  exists months. split; [exact Hm|]. split; [exact Hpos|].
  unfold calculate_monthly_payment.
  assert (E1 : (t <=? 0)%Z = false) by (apply Z.leb_gt; exact Ht).
  assert (E2 : leb (Fin a) (of_int 0) = false).
  { rewrite of_int_0. simpl. destruct (Qle_bool a 0) eqn:E; [|reflexivity].
    apply Qle_bool_iff in E. lra. }
  rewrite E1, E2. cbn [orb].
  change (of_int 100) with (Fin 100). change (of_int 12) with (Fin 12).
  rewrite of_int_0, of_int_1.
  rewrite truediv_Fin by discriminate. cbn [bind].
  rewrite truediv_Fin by discriminate. cbn [bind].
  cbv zeta. cbn [py_float]. rewrite Hm. cbn [bind].
  rewrite truediv_Fin by lra. reflexivity.
Qed.

(** X17: at an interest rate of zero (or so small that the monthly rate
    rounds to zero) no power is computed: for a positive amount and a
    positive number of years the payment is the amount divided by the number
    of months, [loan_term * 12].  [get_model_explanation] takes for its
    monthly payment the same amount divided by [loan_term] itself. *)
Theorem monthly_payment_without_interest (amount : Q) (loan_term : Z)
    (interest_rate : float64) :
  0 < amount -> (0 < loan_term)%Z -> (loan_term * 12 < 2 ^ 1024 - 2 ^ 970)%Z ->
  is_zero (quotient (quotient interest_rate (Fin 100)) (Fin 12)) = true ->
  calculate_monthly_payment float_pow (Fin amount) loan_term interest_rate
  = Ok (PyFloat (quotient (Fin amount) (of_int (loan_term * 12)))) /\
  explained_monthly_payment (Fin amount) loan_term
  = Ok (quotient (Fin amount) (of_int loan_term)).
Proof.
  intros Ha Ht Hb Hz.
  destruct (calculate_monthly_payment_rate amount loan_term interest_rate Ha Ht Hb)
    as (months & Hm & _ & E).
  split.
  - rewrite E, Hm. cbv zeta.
    destruct (quotient (quotient interest_rate (Fin 100)) (Fin 12)) as [|s|q];
      try discriminate Hz.
    simpl in Hz |- *. rewrite Hz. reflexivity.
  - unfold explained_monthly_payment.
    assert (E0 : (0 <? loan_term)%Z = true) by (apply Z.ltb_lt; exact Ht).
    rewrite E0.
    destruct (of_int_positive loan_term) as (d & Hd & Hpos); [lia|].
    cbn [py_float]. rewrite Hd. cbn [bind].
    rewrite truediv_Fin by lra. reflexivity.
Qed.

(** X18: a positive interest rate so small that [1 + monthly_rate] rounds
    to 1 makes [calculate_monthly_payment] raise ZeroDivisionError: the
    power of 1 is 1 (as the C library has it for every exponent) and the
    formula divides by [1 - 1]. *)
Theorem monthly_payment_raises_at_tiny_rate (amount : Q) (loan_term : Z)
    (interest_rate : float64) :
  (forall exponent, float_pow (Fin 1) exponent = Ok (Fin 1)) ->
  0 < amount -> (0 < loan_term)%Z -> (loan_term * 12 < 2 ^ 1024 - 2 ^ 970)%Z ->
  float_eqb (quotient (quotient interest_rate (Fin 100)) (Fin 12)) (Fin 0) = false ->
  add (Fin 1) (quotient (quotient interest_rate (Fin 100)) (Fin 12)) = Fin 1 ->
  calculate_monthly_payment float_pow (Fin amount) loan_term interest_rate
  = Raise ZeroDivisionError.
Proof.
  intros Hpow Ha Ht Hb Hnz Hone.
  destruct (calculate_monthly_payment_rate amount loan_term interest_rate Ha Ht Hb)
    as (months & _ & _ & E).
  rewrite E. cbv zeta. rewrite Hnz, Hone, Hpow. cbn [bind].
  reflexivity.
Qed.

End MonthlyPaymentFacts.

(** ** Instances *)

Lemma calculate_dti_ratio_is_explained_ratio_witness :
  gtb (quotient (of_int 50000) (Fin 12)) (of_int 0) = true /\
  calculate_dti_ratio (of_int 1000) (of_int 50000)
  = (do monthly_income <- monthly_income_of (of_int 50000) ;
     explained_dti_ratio (of_int 1000) monthly_income).
Proof.
  split; [vm_compute; reflexivity|].
  apply (calculate_dti_ratio_is_explained_ratio (of_int 1000) (of_int 50000)).
  right. vm_compute. reflexivity.
Defined.

Lemma dti_warnings_match_explanation_witness :
  gtb (quotient (of_int 50000) (Fin 12)) (of_int 0) = true /\
  exists (dti_ratio : float64) (warning : bool),
    (do monthly_income <- monthly_income_of (of_int 50000) ;
     explained_dti_ratio (Fin 2000) monthly_income) = Ok dti_ratio /\
    form_dti_warning (Fin 2000) (of_int 50000) = Ok warning /\
    dashboard_dti_warning (Fin 2000) (of_int 50000) = Ok warning /\
    (warning = true <->
     dti_explanation dti_ratio
     = "Your high debt-to-income ratio may limit approval chances."%string).
Proof.
  split; [vm_compute; reflexivity|].
  apply (dti_warnings_match_explanation 2000 (of_int 50000)).
  vm_compute. reflexivity.
Defined.

Lemma monthly_payment_without_interest_witness :
  is_zero (quotient (quotient (Fin 0) (Fin 100)) (Fin 12)) = true /\
  calculate_monthly_payment (fun _ _ => Raise OverflowError) (Fin 10000) 3 (Fin 0)
  = Ok (PyFloat (quotient (Fin 10000) (of_int 36))) /\
  explained_monthly_payment (Fin 10000) 3 = Ok (quotient (Fin 10000) (of_int 3)).
Proof.
  split; [reflexivity|].
  apply (monthly_payment_without_interest (fun _ _ => Raise OverflowError) 10000 3 (Fin 0));
    reflexivity.
Defined.

Lemma monthly_payment_raises_at_tiny_rate_witness :
  float_eqb (quotient (quotient (lit 1e-13) (Fin 100)) (Fin 12)) (Fin 0) = false /\
  add (Fin 1) (quotient (quotient (lit 1e-13) (Fin 100)) (Fin 12)) = Fin 1 /\
  calculate_monthly_payment (fun _ _ => Ok (Fin 1)) (Fin 10000) 3 (lit 1e-13)
  = Raise ZeroDivisionError.
Proof.
  split; [vm_compute; reflexivity|]. split; [vm_compute; reflexivity|].
  apply (monthly_payment_raises_at_tiny_rate (fun _ _ => Ok (Fin 1)) 10000 3 (lit 1e-13)).
  - reflexivity.
  - reflexivity.
  - reflexivity.
  - reflexivity.
  - vm_compute. reflexivity.
  - vm_compute. reflexivity.
Defined.

(** * The validators of utils.py *)

Section ValidatorFacts.

Import Stdlib.Strings.Ascii.
Local Open Scope char_scope.
Local Open Scope nat_scope.

(** ** Matching with derivatives is membership in the language *)

Lemma nullable_Matches (r : regex) : nullable r = true <-> Matches r [].
Proof.
  induction r as [| |p|r IHr s IHs|r IHr s IHs|r IHr]; simpl.
  - split; [discriminate | intros H; inversion H].
  - split; [intros _; constructor | reflexivity].
  - split; [discriminate | intros H; inversion H].
  - rewrite andb_true_iff, IHr, IHs. split.
    + intros [H1 H2]. exact (MCat r s [] [] H1 H2).
    + intros H. inversion H as [| |r' s' u v Hu Hv E1 E2| | | |]; subst.
      destruct u; [|discriminate]. destruct v; [|discriminate]. auto.
  - rewrite orb_true_iff, IHr, IHs. split.
    + intros [H|H]; [apply MAltL | apply MAltR]; exact H.
    + intros H. inversion H; subst; auto.
  - split; [intros _; constructor | reflexivity].
Qed.

Lemma Matches_Star_cons (r : regex) (c : ascii) (s : list ascii) :
  Matches (Star r) (c :: s) ->
  exists u v, s = u ++ v /\ Matches r (c :: u) /\ Matches (Star r) v.
Proof.
  intros H. remember (Star r) as r' eqn:Er. remember (c :: s) as s' eqn:Es.
  revert s Es.
  induction H as [| | | | | |r0 u v Hu _ Hv IHv]; intros w Es; try discriminate.
  injection Er as ->.
  destruct u as [|c' u'].
  - simpl in Es. apply IHv; [reflexivity | exact Es].
  - simpl in Es. injection Es as -> <-. exists u', v. auto.
Qed.

Lemma deriv_Matches (r : regex) (c : ascii) (s : list ascii) :
  Matches (deriv c r) s <-> Matches r (c :: s).
Proof.
  revert s. induction r as [| |p|r IHr t IHt|r IHr t IHt|r IHr]; intros s; simpl.
  - split; intros H; inversion H.
  - split; intros H; inversion H.
  - destruct (p c) eqn:E; split; intros H.
    + inversion H; subst. constructor. exact E.
    + inversion H; subst. constructor.
    + inversion H.
    + inversion H; subst. congruence.
  - assert (Hcat : Matches (Cat (deriv c r) t) s ->  Matches (Cat r t) (c :: s)).
    { intros H. inversion H as [| |r' s' u v Hu Hv E1 E2| | | |]; subst.
      apply IHr in Hu. exact (MCat r t (c :: u) v Hu Hv). }
    assert (Hinv : Matches (Cat r t) (c :: s) ->
                   Matches (Cat (deriv c r) t) s \/
                   (Matches r [] /\ Matches t (c :: s))).
    { intros H. inversion H as [| |r' s' u v Hu Hv E1 E2| | | |]; subst.
      destruct u as [|c' u'].
      - right. simpl in E2. subst v. auto.
      - left. simpl in E2. injection E2 as -> <-.
        apply IHr in Hu. exact (MCat (deriv c r) t u' v Hu Hv). }
    destruct (nullable r) eqn:En.
    + split.
      * intros H. inversion H; subst; [apply Hcat; assumption|].
        apply nullable_Matches in En.
        match goal with H' : Matches (deriv c t) s |- _ => apply IHt in H' ;
          exact (MCat r t [] (c :: s) En H') end.
      * intros H. destruct (Hinv H) as [H'|[_ H']].
        -- apply MAltL, H'.
        -- apply MAltR, IHt, H'.
    + split; [exact Hcat|].
      intros H. destruct (Hinv H) as [H'|[H' _]]; [exact H'|].
      apply nullable_Matches in H'. congruence.
  - split; intros H; inversion H; subst.
    + apply MAltL, IHr. assumption.
    + apply MAltR, IHt. assumption.
    + apply MAltL, IHr. assumption.
    + apply MAltR, IHt. assumption.
  - split; intros H.
    + inversion H as [| |r' s' u v Hu Hv E1 E2| | | |]; subst.
      apply IHr in Hu. exact (MStarApp r (c :: u) v Hu Hv).
    + destruct (Matches_Star_cons r c s H) as (u & v & -> & Hu & Hv).
      apply IHr in Hu. exact (MCat (deriv c r) (Star r) u v Hu Hv).
Qed.

Lemma fullmatch_Matches (r : regex) (s : list ascii) :
  fullmatch r s = true <-> Matches r s.
Proof.
  revert r. induction s as [|c s IH]; intros r; simpl.
  - apply nullable_Matches.
  - rewrite IH. apply deriv_Matches.
Qed.

(** ** The languages of the pieces of the pattern *)

Lemma Matches_Cat (r t : regex) (s : list ascii) :
  Matches (Cat r t) s <-> exists u v, s = u ++ v /\ Matches r u /\ Matches t v.
Proof.
  split.
  - intros H. inversion H; subst. eauto.
  - intros (u & v & -> & Hu & Hv). constructor; assumption.
Qed.

Lemma Matches_Chr (p : ascii -> bool) (s : list ascii) :
  Matches (Chr p) s <-> exists c, s = [c] /\ p c = true.
Proof.
  split.
  - intros H. inversion H; subst. eauto.
  - intros (c & -> & Hc). constructor. exact Hc.
Qed.

Lemma Matches_Star_Chr (p : ascii -> bool) (s : list ascii) :
  Matches (Star (Chr p)) s <-> forallb p s = true.
Proof.
  split.
  - intros H. remember (Star (Chr p)) as r eqn:Er.
    induction H as [| | | | | |r0 u v Hu _ Hv IHv]; try discriminate; [reflexivity|].
    injection Er as ->. inversion Hu; subst. simpl.
    rewrite IHv by reflexivity. rewrite andb_true_r. assumption.
  - induction s as [|c s IH]; simpl; intros H; [constructor|].
    apply andb_true_iff in H as [Hc Hs].
    exact (MStarApp (Chr p) [c] s (MChr p c Hc) (IH Hs)).
Qed.

Lemma Matches_Plus_Chr (p : ascii -> bool) (s : list ascii) :
  Matches (Plus (Chr p)) s <-> s <> [] /\ forallb p s = true.
Proof.
  unfold Plus. rewrite Matches_Cat. split.
  - intros (u & v & -> & Hu & Hv).
    apply Matches_Chr in Hu as (c & -> & Hc). apply Matches_Star_Chr in Hv.
    simpl. rewrite Hc, Hv. split; [discriminate | reflexivity].
  - intros [Hne H]. destruct s as [|c s]; [contradiction|]. simpl in H.
    apply andb_true_iff in H as [Hc Hs].
    exists [c], s. split; [reflexivity|]. split.
    + constructor. exact Hc.
    + apply Matches_Star_Chr, Hs.
Qed.

Lemma Matches_Repeat_Chr (n : nat) (p : ascii -> bool) (s : list ascii) :
  Matches (Repeat n (Chr p)) s <-> length s = n /\ forallb p s = true.
Proof.
  revert s. induction n as [|n IH]; intros s; simpl.
  - split.
    + intros H. inversion H; subst. auto.
    + intros [H _]. destruct s; [constructor | discriminate].
  - rewrite Matches_Cat. split.
    + intros (u & v & -> & Hu & Hv).
      apply Matches_Chr in Hu as (c & -> & Hc). apply IH in Hv as [Hl Hv].
      simpl. rewrite Hc, Hv, Hl. auto.
    + intros [Hl H]. destruct s as [|c s]; [discriminate|]. simpl in H, Hl.
      apply andb_true_iff in H as [Hc Hs].
      exists [c], s. split; [reflexivity|]. split.
      * constructor. exact Hc.
      * apply IH. split; [congruence | exact Hs].
Qed.

Lemma Matches_AtLeast_Chr (n : nat) (p : ascii -> bool) (s : list ascii) :
  Matches (AtLeast n (Chr p)) s <-> n <= length s /\ forallb p s = true.
Proof.
  unfold AtLeast. rewrite Matches_Cat. split.
  - intros (u & v & -> & Hu & Hv).
    apply Matches_Repeat_Chr in Hu as [Hl Hu]. apply Matches_Star_Chr in Hv.
    rewrite length_app, forallb_app, Hu, Hv. split; [lia | reflexivity].
  - intros [Hl H].
    exists (firstn n s), (skipn n s).
    rewrite <- (firstn_skipn n s) in H. rewrite forallb_app in H.
    apply andb_true_iff in H as [H1 H2].
    split; [symmetry; apply firstn_skipn|]. split.
    + apply Matches_Repeat_Chr. split; [|exact H1]. apply firstn_length_le, Hl.
    + apply Matches_Star_Chr, H2.
Qed.

Lemma Matches_dollar (s : list ascii) :
  Matches dollar s <-> s = [] \/ s = [newline].
Proof.
  unfold dollar. split.
  - intros H. inversion H as [| | |r t u Hu|r t u Hu| |]; subst.
    + inversion Hu. auto.
    + apply Matches_Chr in Hu as (c & -> & Hc).
      apply Ascii.eqb_eq in Hc. subst c. auto.
  - intros [-> | ->].
    + apply MAltL. constructor.
    + apply MAltR. constructor. apply Ascii.eqb_refl.
Qed.

Lemma re_match_Matches (r : regex) (s : list ascii) :
  re_match r s = true <->
  Matches r s \/ exists t, s = t ++ [newline] /\ Matches r t.
Proof.
  unfold re_match. rewrite fullmatch_Matches, Matches_Cat. split.
  - intros (u & v & -> & Hu & Hv). apply Matches_dollar in Hv as [-> | ->].
    + left. rewrite app_nil_r. exact Hu.
    + right. eauto.
  - intros [H | (t & -> & H)].
    + exists s, []. rewrite app_nil_r. split; [reflexivity|]. split; [exact H|].
      apply Matches_dollar. auto.
    + exists t, [newline]. split; [reflexivity|]. split; [exact H|].
      apply Matches_dollar. auto.
Qed.

Lemma forallb_In (p : ascii -> bool) (s : list ascii) (c : ascii) :
  forallb p s = true -> In c s -> p c = true.
Proof. intros H. rewrite forallb_forall in H. apply H. Qed.

(** ** validate_email *)

Lemma Matches_email_pattern (s : list ascii) :
  Matches email_pattern s <->
  exists local domain tld,
    s = local ++ "@" :: domain ++ "." :: tld /\
    local <> [] /\ forallb email_local local = true /\
    domain <> [] /\ forallb email_domain domain = true /\
    2 <= length tld /\ forallb is_letter tld = true.
Proof.
  unfold email_pattern. split.
  - intros H.
    apply Matches_Cat in H as (local & s1 & -> & Hl & H).
    apply Matches_Cat in H as (at_ & s2 & -> & Ha & H).
    apply Matches_Cat in H as (domain & s3 & -> & Hd & H).
    apply Matches_Cat in H as (dot & tld & -> & Hdot & Ht).
    apply Matches_Plus_Chr in Hl as [Hl1 Hl2].
    apply Matches_Chr in Ha as (a & -> & Ha). apply Ascii.eqb_eq in Ha. subst a.
    apply Matches_Plus_Chr in Hd as [Hd1 Hd2].
    apply Matches_Chr in Hdot as (d & -> & Hdot). apply Ascii.eqb_eq in Hdot. subst d.
    apply Matches_AtLeast_Chr in Ht as [Ht1 Ht2].
    exists local, domain, tld. auto 10.
  - intros (local & domain & tld & -> & Hl1 & Hl2 & Hd1 & Hd2 & Ht1 & Ht2).
    apply Matches_Cat. exists local, ("@" :: domain ++ "." :: tld).
    split; [reflexivity|]. split; [apply Matches_Plus_Chr; auto|].
    apply Matches_Cat. exists ["@"], (domain ++ "." :: tld).
    split; [reflexivity|]. split; [constructor; reflexivity|].
    apply Matches_Cat. exists domain, ("." :: tld).
    split; [reflexivity|]. split; [apply Matches_Plus_Chr; auto|].
    apply Matches_Cat. exists ["."], tld.
    split; [reflexivity|]. split; [constructor; reflexivity|].
    apply Matches_AtLeast_Chr. auto.
Qed.

Lemma email_pattern_no_newline (s : list ascii) :
  Matches email_pattern s -> ~ In newline s.
Proof.
  intros H. apply Matches_email_pattern in H
    as (local & domain & tld & -> & _ & Hl & _ & Hd & _ & Ht).
  rewrite in_app_iff. simpl. rewrite in_app_iff. simpl.
  intros [H | [H | [H | [H | H]]]]; try discriminate H.
  - apply (forallb_In _ _ _ Hl) in H. discriminate H.
  - apply (forallb_In _ _ _ Hd) in H. discriminate H.
  - apply (forallb_In _ _ _ Ht) in H. discriminate H.
Qed.

(** X19: [validate_email] accepts exactly the strings
    local "@" domain "." tld, with an optional newline after them, where
    local is one or more letters, digits or characters of [._%+-], domain
    one or more letters, digits, dots or hyphens, and tld two or more
    letters: nothing else is checked (neither the place nor the number of
    the dots and hyphens of the domain). *)
Theorem validate_email_shape (email : list ascii) :
  validate_email email = true <->
  exists local domain tld tail,
    email = local ++ "@" :: domain ++ "." :: tld ++ tail /\
    (tail = [] \/ tail = [newline]) /\
    local <> [] /\ forallb email_local local = true /\
    domain <> [] /\ forallb email_domain domain = true /\
    2 <= length tld /\ forallb is_letter tld = true.
Proof.
  unfold validate_email. rewrite re_match_Matches. split.
  - intros [H | (t & -> & H)];
      apply Matches_email_pattern in H as (local & domain & tld & -> & H).
    + exists local, domain, tld, []. rewrite app_nil_r. auto.
    + exists local, domain, tld, [newline].
      split; [|auto]. rewrite <- app_assoc. simpl. rewrite <- app_assoc. reflexivity.
  - intros (local & domain & tld & tail & -> & [-> | ->] & H).
    + left. apply Matches_email_pattern. exists local, domain, tld.
      rewrite app_nil_r. auto.
    + right. exists (local ++ "@" :: domain ++ "." :: tld). split.
      * rewrite <- app_assoc. simpl. rewrite <- app_assoc. reflexivity.
      * apply Matches_email_pattern. exists local, domain, tld. auto.
Qed.

(** X20: an accepted address holds exactly one "@": it is preceded by at
    least one character, and followed by a part that holds a dot. *)
Theorem validate_email_single_at (email : list ascii) :
  validate_email email = true ->
  exists local rest,
    email = local ++ "@" :: rest /\ local <> [] /\
    ~ In "@" local /\ ~ In "@" rest /\ In "." rest.
Proof.
  unfold validate_email. rewrite re_match_Matches.
  assert (Hp : forall s tail, Matches email_pattern s -> ~ In "@" tail ->
            exists local rest,
              s ++ tail = local ++ "@" :: rest /\ local <> [] /\
              ~ In "@" local /\ ~ In "@" rest /\ In "." rest).
  { intros s tail H Htail. apply Matches_email_pattern in H
      as (local & domain & tld & -> & Hl1 & Hl2 & Hd1 & Hd2 & Ht1 & Ht2).
    exists local, (domain ++ "." :: tld ++ tail).
    split; [|split; [exact Hl1|split; [|split]]].
    - rewrite <- app_assoc. simpl. rewrite <- app_assoc. reflexivity.
    - intros H. apply (forallb_In _ _ _ Hl2) in H. discriminate H.
    - rewrite in_app_iff. simpl. rewrite in_app_iff.
      intros [H | [H | [H | H]]].
      + apply (forallb_In _ _ _ Hd2) in H. discriminate H.
      + discriminate H.
      + apply (forallb_In _ _ _ Ht2) in H. discriminate H.
      + exact (Htail H).
    - rewrite in_app_iff. right. left. reflexivity. }
  intros [H | (t & -> & H)].
  - rewrite <- (app_nil_r email). apply Hp; [exact H | intros []].
  - apply Hp; [exact H|]. intros [E|[]]. discriminate E.
Qed.

(** X21: [$] lets one final newline pass: for a string that holds no
    newline, adding a newline at its end does not change the verdict of
    [validate_email]; an accepted address stays accepted with a newline
    after it. *)
Theorem validate_email_final_newline (email : list ascii) :
  ~ In newline email ->
  validate_email (email ++ [newline]) = validate_email email.
Proof.
  intros Hn. apply eq_true_iff_eq. unfold validate_email.
  rewrite !re_match_Matches. split.
  - intros [H | (t & E & H)].
    + apply email_pattern_no_newline in H. exfalso. apply H.
      rewrite in_app_iff. right. left. reflexivity.
    + apply app_inj_tail in E as [-> _]. left. exact H.
  - intros [H | (t & -> & H)].
    + right. exists email. auto.
    + exfalso. apply Hn. rewrite in_app_iff. right. left. reflexivity.
Qed.

Lemma validate_email_single_at_witness :
  validate_email (String.list_ascii_of_string "jo@ex.org"%string) = true /\
  exists local rest,
    String.list_ascii_of_string "jo@ex.org"%string = local ++ "@" :: rest /\ local <> [] /\
    ~ In "@" local /\ ~ In "@" rest /\ In "." rest.
Proof.
  split; [vm_compute; reflexivity|].
  apply (validate_email_single_at (String.list_ascii_of_string "jo@ex.org"%string)).
  vm_compute. reflexivity.
Defined.

Lemma validate_email_final_newline_witness :
  ~ In newline (String.list_ascii_of_string "jo@ex.org"%string) /\
  validate_email (String.list_ascii_of_string "jo@ex.org"%string ++ [newline]) = true.
Proof.
  assert (H : ~ In newline (String.list_ascii_of_string "jo@ex.org"%string)).
  { simpl. intros H. repeat (destruct H as [H|H]; [discriminate H|]). exact H. }
  split; [exact H|].
  rewrite (validate_email_final_newline (String.list_ascii_of_string "jo@ex.org"%string) H).
  vm_compute. reflexivity.
Defined.

End ValidatorFacts.

(** ** validate_phone *)

Lemma in_ranges_In (ranges : list (N * N)) (c : N) :
  in_ranges ranges c = true <->
  exists lo hi, In (lo, hi) ranges /\ (lo <= c <= hi)%N.
Proof.
  unfold in_ranges. rewrite existsb_exists. split.
  - intros ([lo hi] & Hin & H). apply andb_true_iff in H as [H1 H2].
    apply N.leb_le in H1, H2. exists lo, hi. auto.
  - intros (lo & hi & Hin & H1 & H2). exists (lo, hi). split; [exact Hin|].
    apply andb_true_iff. split; apply N.leb_le; assumption.
Qed.

(** Two lists of ranges that lie apart have no member in common. *)
Lemma in_ranges_apart (R1 R2 : list (N * N)) (c : N) :
  forallb (fun r1 => forallb (apart r1) R2) R1 = true ->
  in_ranges R1 c = true -> in_ranges R2 c = false.
Proof.
  intros Ha H1. destruct (in_ranges R2 c) eqn:H2; [|reflexivity]. exfalso.
  apply in_ranges_In in H1 as (lo1 & hi1 & In1 & B1).
  apply in_ranges_In in H2 as (lo2 & hi2 & In2 & B2).
  rewrite forallb_forall in Ha. specialize (Ha _ In1).
  rewrite forallb_forall in Ha. specialize (Ha _ In2).
  unfold apart in Ha. cbn [fst snd] in Ha.
  apply orb_true_iff in Ha as [Ha | Ha]; apply N.ltb_lt in Ha; lia.
Qed.

Lemma phone_separator_ranges (c : N) :
  phone_separator c
  = in_ranges (white_space ++ [(40, 41); (45, 46)]%N) c.
Proof.
  unfold phone_separator, is_space, in_ranges. rewrite existsb_app.
  cbn [existsb fst snd]. rewrite orb_false_r, <- !orb_assoc. f_equal.
  destruct (N.eqb_spec c 45), (N.eqb_spec c 40), (N.eqb_spec c 41), (N.eqb_spec c 46),
    (N.leb_spec 40 c), (N.leb_spec c 41), (N.leb_spec 45 c), (N.leb_spec c 46);
    try reflexivity; lia.
Qed.

Lemma unicode_14_decimal_not_separator (c : N) :
  unicode_14_decimal c = true -> phone_separator c = false.
Proof.
  intros H. rewrite phone_separator_ranges.
  apply (in_ranges_apart unicode_14_decimal_ranges); [|exact H].
  vm_compute. reflexivity.
Qed.

Section ValidatePhoneFacts.

Variable is_decimal : N -> bool.
Hypothesis decimal_not_separator :
  forall c, is_decimal c = true -> phone_separator c = false.

Lemma match_digits_spec (n : nat) (s : list N) :
  ~ In 10%N s ->
  match_digits is_decimal n s = true <-> length s = n /\ forallb is_decimal s = true.
Proof.
  revert s. induction n as [|n IH]; intros s Hs.
  - destruct s as [|c [|d s]]; cbn [match_digits length forallb].
    + tauto.
    + split.
      * intros H. apply N.eqb_eq in H. exfalso. apply Hs. left. auto.
      * intros [H _]. discriminate H.
    + split; [discriminate | intros [H _]; discriminate H].
  - destruct s as [|c s]; cbn [match_digits length forallb].
    + split; [discriminate | intros [H _]; discriminate H].
    + rewrite andb_true_iff, IH by (intros H; apply Hs; right; exact H).
      split.
      * intros (H1 & H2 & H3). rewrite H1, H2, H3. auto.
      * intros (H1 & H2). apply andb_true_iff in H2 as [H2 H3].
        injection H1 as H1. auto.
Qed.

Lemma cleaned_phone_no_newline (phone : list N) :
  ~ In 10%N (re_sub_class phone_separator phone).
Proof.
  unfold re_sub_class. intros H. apply filter_In in H as [_ H]. discriminate H.
Qed.

Lemma cleaned_phone_digits (phone : list N) (n : nat) :
  length (re_sub_class phone_separator phone) = n /\
  forallb is_decimal (re_sub_class phone_separator phone) = true <->
  length (List.filter is_decimal phone) = n /\
  forallb (fun c => is_decimal c || phone_separator c) phone = true.
Proof.
  unfold re_sub_class. revert n.
  induction phone as [|c phone IH]; intros n; simpl; [tauto|].
  destruct (is_decimal c) eqn:Ed.
  - rewrite (decimal_not_separator c Ed). simpl. rewrite Ed. simpl.
    destruct n as [|n].
    + split; intros [H _]; discriminate H.
    + specialize (IH n). split; intros [H1 H2].
      * injection H1 as H1. destruct (proj1 IH (conj H1 H2)). auto.
      * injection H1 as H1. destruct (proj2 IH (conj H1 H2)). auto.
  - destruct (phone_separator c) eqn:Es; simpl.
    + apply IH.
    + rewrite Ed. simpl. split; intros [_ H]; discriminate H.
Qed.

End ValidatePhoneFacts.

(** X22: [validate_phone] accepts exactly the strings that hold ten decimal
    digits of Unicode, ASCII or not, and, besides them, only separators
    (the white space of Unicode, hyphens, parentheses and dots), in any
    number and at any place; for every class of decimal digits that has
    none of the separators, which is so in every version of Unicode.  A
    number in Arabic-Indic digits is accepted. *)
Theorem validate_phone_shape (is_decimal : N -> bool) (phone : list N) :
  (forall c, is_decimal c = true -> phone_separator c = false) ->
  validate_phone is_decimal phone = true <->
  length (List.filter is_decimal phone) = 10%nat /\
  forallb (fun c => is_decimal c || phone_separator c) phone = true.
Proof.
  intros H. rewrite <- (cleaned_phone_digits is_decimal H).
  unfold validate_phone. cbv zeta.
  apply match_digits_spec, cleaned_phone_no_newline.
Qed.

Lemma validate_phone_shape_witness :
  validate_phone unicode_14_decimal arabic_indic_phone = true /\
  length (List.filter unicode_14_decimal arabic_indic_phone) = 10%nat.
Proof.
  split; [vm_compute; reflexivity|].
  apply (validate_phone_shape unicode_14_decimal arabic_indic_phone
           unicode_14_decimal_not_separator).
  vm_compute. reflexivity.
Defined.
